(** * HitBTC adapter (js/hitbtc.js): a shallow embedding and its properties

    The adapter turns the exchange's decoded JSON into unified records and
    unified requests into signed HTTP requests.  JavaScript numbers are
    IEEE 754 binary64 values, embedded as Rocq's primitive floats; [undefined]
    is [None]; decoded JSON is the inductive type [value]; the objects the
    adapter uses as dictionaries ([this.orders], [this.markets_by_id], request
    parameters) are finite maps keyed by strings.  Such a map holds the
    dictionary's own keys; where the adapter reads a dictionary or a table
    by a name it was given ([statuses[status]], [marketId in
    this.markets_by_id]), the members every object inherits from
    [Object.prototype] ([constructor], [toString], ...) are found as well,
    and are modelled beside the map ([inherited], [market_by_id]). *)

From Stdlib Require Import ZArith String Ascii List Bool Uint63.
From Stdlib Require Import Floats.PrimFloat Floats.FloatOps Floats.SpecFloat Floats.FloatAxioms.
From stdpp Require Import base option list gmap strings pretty.

Local Open Scope string_scope.
Local Open Scope list_scope.
#[local] Set Warnings "-inexact-float".

(** ** JavaScript values

    Decoded JSON never holds [JUndefined]; the request objects the adapter
    builds may. *)

#[local] Unset Elimination Schemes.
Inductive value : Type :=
| JUndefined
| JNull
| JBool (b : bool)
| JNum (n : float)
| JStr (s : string)
| JArr (items : list value)
| JObj (fields : list (string * value)).
#[local] Set Elimination Schemes.

(** Own-property lookup of an object literal, first binding first. *)
Fixpoint assoc {A : Type} (k : string) (l : list (string * A)) : option A :=
  match l with
  | [] => None
  | (k', v) :: tl => if String.eqb k k' then Some v else assoc k tl
  end.

(** ** Exceptions and outcomes of a call *)

Inductive error_class : Type :=
| TypeError
| BadSymbol
| PermissionDenied
| ExchangeError
| ExchangeNotAvailable
| OrderNotFound
| InsufficientFunds
| InvalidOrder
| InvalidAddress
| RequestTimeout
| AuthenticationError.

#[global] Instance error_class_eq_dec : EqDecision error_class.
Proof. solve_decision. Defined.

Record exception : Type := Exception { exn_class : error_class; exn_message : string }.

Inductive outcome (A : Type) : Type :=
| Returned (a : A)
| Thrown (e : exception).
Arguments Returned {A} a.
Arguments Thrown {A} e.

Definition obind {A B : Type} (m : outcome A) (k : A -> outcome B) : outcome B :=
  match m with
  | Returned a => k a
  | Thrown e => Thrown e
  end.

#[global] Instance outcome_fmap : FMap outcome :=
  fun A B f m =>
    match m with
    | Returned a => Returned (f a)
    | Thrown e => Thrown e
    end.

Notation "'do' x <- m ; k" := (obind m (fun x => k))
  (at level 10, x name, m at level 100, k at level 200).
Notation "'do' ' p <- m ; k" := (obind m (fun x => let 'p := x in k))
  (at level 10, p strict pattern, m at level 100, k at level 200).

Definition throw {A : Type} (c : error_class) (msg : string) : outcome A :=
  Thrown (Exception c msg).

(** [traverse f l] runs [f] over [l] from left to right and stops at the
    first exception, as [Array.prototype.map] with a throwing callback does. *)
Fixpoint traverse {A B : Type} (f : A -> outcome B) (l : list A) : outcome (list B) :=
  match l with
  | [] => Returned []
  | a :: tl => do b <- f a; do bs <- traverse f tl; Returned (b :: bs)
  end.

(** ** JavaScript numbers *)

(** A numeric variable of the adapter holds a number or [undefined]. *)
Abbreviation number := (option float).

(** [ToNumber]: [undefined] becomes [NaN] in arithmetic. *)
Definition to_number (x : number) : float :=
  match x with
  | Some f => f
  | None => nan
  end.

Definition js_mul (x y : number) : float := PrimFloat.mul (to_number x) (to_number y).
Definition js_div (x y : number) : float := PrimFloat.div (to_number x) (to_number y).

(** [Number.isFinite], which the base library calls [isNumber]. *)
Definition isNumber (x : number) : bool :=
  match x with
  | Some f => is_finite f
  | None => false
  end.

(** Modelled from the spec: the base client's variadic [sum] helper lives in
    ./base/Exchange, outside hitbtc.js. It adds, from zero and from left to
    right, those arguments that are finite numbers, and is [undefined] when
    there is none. *)
Definition sum (xs : list number) : number :=
  match List.filter isNumber xs with
  | [] => None
  | ns => Some (fold_left (fun a b => PrimFloat.add a (to_number b)) ns 0%float)
  end.

(** ** Unified records *)

Record market : Type := Market {
  m_id : option string;
  m_symbol : option string;
  m_base : option string;
  m_quote : option string;
  m_feeCurrency : option string;
}.

Record currency : Type := Currency {
  c_id : option string;
  c_code : option string;
}.

Record fee : Type := Fee {
  fee_cost : number;
  fee_currency : option string;
}.

Record trade : Type := Trade {
  t_info : value;
  t_id : option string;
  t_order : option string;
  t_timestamp : option Z;
  t_datetime : option string;
  t_symbol : option string;
  t_type : option string;
  t_side : option string;
  t_takerOrMaker : option string;
  t_price : number;
  t_amount : number;
  t_cost : number;
  t_fee : option fee;
}.

Record order : Type := Order {
  o_id : option string;
  o_clientOrderId : option string;
  o_timestamp : option Z;
  o_datetime : option string;
  o_lastTradeTimestamp : option Z;
  o_status : option string;
  o_symbol : option string;
  o_type : option string;
  o_side : option string;
  o_price : number;
  o_average : number;
  o_amount : number;
  o_cost : number;
  o_filled : number;
  o_remaining : number;
  o_fee : option fee;
  o_trades : option (list trade);
  o_info : value;
}.

Record ticker : Type := Ticker {
  tk_symbol : option string;
  tk_timestamp : option Z;
  tk_datetime : option string;
  tk_high : number;
  tk_low : number;
  tk_bid : number;
  tk_bidVolume : number;
  tk_ask : number;
  tk_askVolume : number;
  tk_vwap : number;
  tk_open : number;
  tk_close : number;
  tk_last : number;
  tk_previousClose : number;
  tk_change : number;
  tk_percentage : number;
  tk_average : number;
  tk_baseVolume : number;
  tk_quoteVolume : number;
  tk_info : value;
}.

(** What [sign] returns and the transport sends. *)
Record request : Type := Request {
  r_url : string;
  r_method : string;
  r_body : option string;
  r_headers : option (list (string * string));
}.

(** What [withdraw] returns. *)
Record withdrawal : Type := Withdrawal {
  w_info : value;
  w_id : option value;
}.

(** The adapter instance ([this]): credentials, the market tables of
    [loadMarkets], and the order cache, its only mutable part. *)
Record exchange : Type := Exchange {
  apiKey : option string;
  secret : option string;
  markets : gmap string market;
  markets_by_id : gmap string market;
  currencies : gmap string currency;
  orders : gmap string order;
}.

Definition set_orders (this : exchange) (os : gmap string order) : exchange :=
  {| apiKey := apiKey this; secret := secret this; markets := markets this;
     markets_by_id := markets_by_id this; currencies := currencies this;
     orders := os |}.

(** A property key: [o[undefined]] reads the key ["undefined"]. *)
Definition property_key (k : option string) : string :=
  match k with
  | Some s => s
  | None => "undefined"
  end.

(** The members every plain object inherits from [Object.prototype]: the
    operator [in] finds them and a read by name returns them. *)
Definition Object_prototype : list string :=
  [ "constructor"; "hasOwnProperty"; "isPrototypeOf"; "propertyIsEnumerable";
    "toLocaleString"; "toString"; "valueOf"; "__proto__";
    "__defineGetter__"; "__defineSetter__"; "__lookupGetter__"; "__lookupSetter__" ].

Definition inherited (k : string) : bool :=
  existsb (String.eqb k) Object_prototype.

(** An inherited member read as a market: a function, or the prototype
    itself, neither of which has any of the members a market has. *)
Definition inherited_market : market :=
  {| m_id := None; m_symbol := None; m_base := None; m_quote := None;
     m_feeCurrency := None |}.

(** [marketId in this.markets_by_id] and [this.markets_by_id[marketId]]: a
    key of the table, else an inherited member. *)
Definition market_by_id (this : exchange) (marketId : string) : option market :=
  match markets_by_id this !! marketId with
  | Some m => Some m
  | None => if inherited marketId then Some inherited_market else None
  end.

(** ** What the JavaScript runtime and the base client supply

    The adapter extends a base client (./base/Exchange) and runs on a
    JavaScript engine.  The functions below are theirs; every definition and
    theorem of the adapter is stated for an arbitrary [Host]. *)

Class Host : Type := {
  (** the global [parseFloat] *)
  parseFloat : value -> float;
  (** [Number.prototype.toString] *)
  numberToString : float -> string;
  (** [Function.prototype.toString] on the built-in function that
      [Object.prototype] holds under a name: what follows the keyword
      [function], which every engine starts it with *)
  nativeFunction : string -> string;
  (** the engine's wording of a [TypeError]; the argument is V8's *)
  engineMessage : string -> string;
  (** [Date.parse] on an ISO-8601 string, in milliseconds *)
  dateParse : string -> option Z;
  (** the base client's [iso8601] *)
  iso8601 : option Z -> option string;
  (** the base client's [implodeParams], [urlencode] and [json] *)
  implodeParams : string -> gmap string value -> string;
  urlencode : gmap string value -> string;
  json : gmap string value -> string;
  json_order : order -> string;
  (** the base client's [amountToPrecision] and [priceToPrecision] *)
  amountToPrecision : string -> float -> string;
  priceToPrecision : string -> option value -> string;
  (** the test of the base client's [checkAddress] on a given address *)
  validAddress : string -> bool;
  (** the transport: the decoded answer to a signed request, or the
      exception the base client raises for it *)
  fetch : request -> outcome value;
}.

Section Adapter.
Context {host : Host}.

(** *** The static description ([describe]) *)

Definition this_id : string := "hitbtc".
Definition version : string := "2".
Definition defaultTimeInForce : string := "FOK".

Definition api_urls : list (string * string) :=
  [ ("public", "https://api.hitbtc.com");
    ("private", "https://api.hitbtc.com") ].

Definition exceptions : list (string * error_class) :=
  [ ("504", RequestTimeout);
    ("1002", AuthenticationError);
    ("1003", PermissionDenied);
    ("2010", InvalidOrder);
    ("2001", BadSymbol);
    ("2011", InvalidOrder);
    ("2020", InvalidOrder);
    ("20002", OrderNotFound);
    ("20001", InsufficientFunds) ].

(** A [TypeError] of the engine: the program fixes its class, the engine
    its wording. *)
Definition type_error {A : Type} (description : string) : outcome A :=
  throw TypeError (engineMessage description).

(** [String (x)] for a member [x] inherited from [Object.prototype]: the
    prototype itself under [__proto__], a built-in function under any other
    name. *)
Definition inherited_string (k : string) : string :=
  if String.eqb k "__proto__" then "[object Object]"
  else "function" +:+ nativeFunction k.

(** *** Safe accessors of the base client *)

(** [String (x)]. *)
Fixpoint js_String (x : value) : string :=
  match x with
  | JUndefined => "undefined"
  | JNull => "null"
  | JBool true => "true"
  | JBool false => "false"
  | JNum n => numberToString n
  | JStr s => s
  | JArr items =>
      (fix join (l : list value) : string :=
         match l with
         | [] => EmptyString
         | v :: tl =>
             match v with
             | JUndefined | JNull => EmptyString
             | _ => js_String v
             end
             +:+ match tl with
                 | [] => EmptyString
                 | _ => "," +:+ join tl
                 end
         end) items
  | JObj _ => "[object Object]"
  end.

(** Truthiness, as [if (x)] tests it. *)
Definition truthy (x : value) : bool :=
  match x with
  | JUndefined | JNull => false
  | JBool b => b
  | JNum n => negb (is_nan n || is_zero n)
  | JStr s => negb (String.eqb s EmptyString)
  | JArr _ | JObj _ => true
  end.

(** A field read: a missing key and a key bound to [undefined] both read as
    [undefined]. *)
Definition defined (x : option value) : option value :=
  match x with
  | Some JUndefined => None
  | _ => x
  end.

(** Modelled from the spec: the base client's [prop] lives in ./base/Exchange,
    outside hitbtc.js. It reads a key of an object and is [undefined] on
    anything else. *)
Definition prop (o : value) (k : string) : option value :=
  match o with
  | JObj fields => defined (assoc k fields)
  | _ => None
  end.

(** The member expression [o[k]] of the source: a [TypeError] on [null] and
    [undefined]. *)
Definition index (o : value) (k : string) : outcome (option value) :=
  match o with
  | JNull => type_error ("Cannot read property '" +:+ k +:+ "' of null")
  | JUndefined => type_error ("Cannot read property '" +:+ k +:+ "' of undefined")
  | _ => Returned (prop o k)
  end.

(** The operator [k in o]: a [TypeError] unless [o] is an object. *)
Definition js_in (k : string) (o : value) : outcome bool :=
  match o with
  | JObj fields => Returned (bool_decide (is_Some (assoc k fields)))
  | JArr _ => Returned false
  | _ => type_error ("Cannot use 'in' operator to search for '" +:+ k +:+ "'")
  end.

(** Modelled from the spec: the base client's [safeString] lives in
    ./base/Exchange, outside hitbtc.js. A missing or null field gives the
    default, any other value its string. *)
Definition safeString (o : value) (k : string) (default : option string) : option string :=
  match prop o k with
  | None | Some JNull => default
  | Some x => Some (js_String x)
  end.

Definition finite (n : float) : number :=
  if is_finite n then Some n else None.

(** Modelled from the spec: the base client's [safeFloat] lives in
    ./base/Exchange, outside hitbtc.js ("numeric values arrive as decimal
    strings", "missing optional fields default to unset"). A finite number or
    a string is read by [parseFloat]; the result is kept when finite, anything
    else is [undefined]. *)
Definition safeFloat (o : value) (k : string) : number :=
  match prop o k with
  | Some (JNum n) => if is_finite n then finite (parseFloat (JNum n)) else None
  | Some (JStr s) => finite (parseFloat (JStr s))
  | _ => None
  end.

(** [safeFloat] on a numeric field of a record the adapter built itself. *)
Definition safeFloat_number (x : number) : number :=
  match x with
  | Some n => if is_finite n then finite (parseFloat (JNum n)) else None
  | None => None
  end.

(** Modelled from the spec: the base client's [safeValue] lives in
    ./base/Exchange, outside hitbtc.js. It gives the field unless it is
    missing or null. *)
Definition safeValue (o : value) (k : string) : option value :=
  match prop o k with
  | None | Some JNull => None
  | Some x => Some x
  end.

(** Modelled from the spec: the base client's [parse8601] lives in
    ./base/Exchange, outside hitbtc.js ("timestamps are ISO-8601 strings");
    anything but a string is [undefined]. *)
Definition parse8601 (x : option value) : option Z :=
  match x with
  | Some (JStr s) => dateParse s
  | _ => None
  end.

(** [Object.values]. *)
Definition object_values (x : value) : list value :=
  match x with
  | JArr items => items
  | JObj fields => map snd fields
  | JStr s => map (fun c => JStr (String c EmptyString)) (list_ascii_of_string s)
  | _ => []
  end.

(** [extend (a, b)]: the keys of [b] override those of [a]. *)
Definition extend (a b : gmap string value) : gmap string value := b ∪ a.

(** [omit (o, keys)]. *)
Definition omit (o : gmap string value) (keys : list string) : gmap string value :=
  foldr delete o keys.

Definition of_string (s : option string) : value :=
  match s with
  | Some s => JStr s
  | None => JUndefined
  end.

(** ** parseTicker *)

Definition parseTicker (raw : value) (market : option market) : outcome ticker :=
  do raw_timestamp <- index raw "timestamp";
  let timestamp := parse8601 raw_timestamp in
  let symbol := match market with
                | Some m => m_symbol m
                | None => None
                end in
  let baseVolume := safeFloat raw "volume" in
  let quoteVolume := safeFloat raw "volumeQuote" in
  let open := safeFloat raw "open" in
  let last := safeFloat raw "last" in
  let '(change, percentage, average) :=
    match last, open with
    | Some l, Some o =>
        let change := PrimFloat.sub l o in
        (Some change,
         if PrimFloat.ltb 0 o
         then Some (PrimFloat.mul (PrimFloat.div change o) 100)
         else None,
         Some (js_div (sum [last; open]) (Some 2%float)))
    | _, _ => (None, None, None)
    end in
  let vwap :=
    match quoteVolume, baseVolume with
    | Some q, Some b => if PrimFloat.ltb 0 b then Some (PrimFloat.div q b) else None
    | _, _ => None
    end in
  Returned {|
    tk_symbol := symbol;
    tk_timestamp := timestamp;
    tk_datetime := iso8601 timestamp;
    tk_high := safeFloat raw "high";
    tk_low := safeFloat raw "low";
    tk_bid := safeFloat raw "bid";
    tk_bidVolume := None;
    tk_ask := safeFloat raw "ask";
    tk_askVolume := None;
    tk_vwap := vwap;
    tk_open := open;
    tk_close := last;
    tk_last := last;
    tk_previousClose := None;
    tk_change := change;
    tk_percentage := percentage;
    tk_average := average;
    tk_baseVolume := baseVolume;
    tk_quoteVolume := quoteVolume;
    tk_info := raw;
  |}.

(** ** parseTrade *)

Definition parseTrade (this : exchange) (raw : value) (market : option market)
  : outcome trade :=
  do raw_timestamp <- index raw "timestamp";
  let timestamp := parse8601 raw_timestamp in
  let marketId := safeString raw "symbol" None in
  let '(market, symbol) :=
    match marketId with
    | Some mid =>
        match market_by_id this mid with
        | Some m => (Some m, None)
        | None => (market, Some mid)
        end
    | None => (market, None)
    end in
  let symbol :=
    match symbol, market with
    | None, Some m => m_symbol m
    | _, _ => symbol
    end in
  let feeCost := safeFloat raw "fee" in
  let fee :=
    match feeCost with
    | Some c =>
        let feeCurrencyCode := match market with
                               | Some m => m_feeCurrency m
                               | None => None
                               end in
        Some {| fee_cost := Some c; fee_currency := feeCurrencyCode |}
    | None => None
    end in
  let orderId := safeString raw "clientOrderId" None in
  let price := safeFloat raw "price" in
  let amount := safeFloat raw "quantity" in
  let cost := js_mul price amount in
  let side := safeString raw "side" None in
  let id := safeString raw "id" None in
  Returned {|
    t_info := raw;
    t_id := id;
    t_order := orderId;
    t_timestamp := timestamp;
    t_datetime := iso8601 timestamp;
    t_symbol := symbol;
    t_type := None;
    t_side := side;
    t_takerOrMaker := None;
    t_price := price;
    t_amount := amount;
    t_cost := Some cost;
    t_fee := fee;
  |}.

(** Modelled from the spec: the base client's [parseTrades] lives in
    ./base/Exchange, outside hitbtc.js ("an Order aggregates zero or more
    Trades"). With no [since] and no [limit], as [parseOrder] calls it, it
    parses every entry of the list with [parseTrade], in the order of the
    list. *)
Definition parseTrades (this : exchange) (raws : value) (market : option market)
  : outcome (list trade) :=
  traverse (fun raw => parseTrade this raw market) (object_values raws).

(** ** parseOrderStatus *)

Definition statuses : list (string * string) :=
  [ ("new", "open");
    ("suspended", "open");
    ("partiallyFilled", "open");
    ("filled", "closed");
    ("canceled", "canceled");
    ("expired", "failed") ].

(** The status names the table knows. *)
Definition status_names : list string :=
  ["new"; "suspended"; "partiallyFilled"; "filled"; "canceled"; "expired"].

(** [safeString (statuses, status, status)]: the table is an object
    literal, so a name it inherits is found too, and read as its string. *)
Definition parseOrderStatus (status : option string) : option string :=
  match assoc (property_key status) statuses with
  | Some unified => Some unified
  | None =>
      if inherited (property_key status)
      then Some (inherited_string (property_key status))
      else status
  end.

(** ** parseOrder *)

(** The two reads [safeValue (trades[i], 'fee', {})] and
    [safeFloat (tradeFee, 'cost')] of the loop over the parsed fills. *)
Definition trade_fee_cost (t : trade) : number :=
  match t_fee t with
  | Some f => safeFloat_number (fee_cost f)
  | None => None
  end.

(** One turn of the loop over the parsed fills; the state is
    [(feeCost, tradesCost)]. *)
Definition fills_step (acc : number * number) (t : trade) : number * number :=
  let '(feeCost, tradesCost) := acc in
  let feeCost := match feeCost with
                 | None => Some 0%float
                 | Some _ => feeCost
                 end in
  let tradesCost := sum [tradesCost; t_cost t] in
  let tradeFeeCost := trade_fee_cost t in
  let feeCost := match tradeFeeCost with
                 | Some _ => sum [feeCost; tradeFeeCost]
                 | None => feeCost
                 end in
  (feeCost, tradesCost).

(** The block [if (trades !== undefined) { ... }] of [parseOrder]: it gives
    the parsed fills, the fee, the average, the cost and the price. *)
Definition parseOrder_fills (this : exchange) (report : value) (market : option market)
    (filled : number) (type : option string) (price : number)
  : outcome (list trade * option fee * number * number * number) :=
  do trades <- parseTrades this report market;
  let '(feeCost, tradesCost) := fold_left fills_step trades (None, Some 0%float) in
  let cost := tradesCost in
  let '(average, price) :=
    match filled with
    | Some f =>
        if PrimFloat.ltb 0 f then
          let average := Some (js_div cost filled) in
          (average,
           if bool_decide (type = Some "market")
           then match price with
                | None => average
                | Some _ => price
                end
           else price)
        else (None, price)
    | None => (None, price)
    end in
  do fee <-
    match feeCost with
    | Some _ =>
        match market with
        | Some m => Returned (Some {| fee_cost := feeCost; fee_currency := m_quote m |})
        | None => type_error "Cannot read property 'quote' of undefined"
        end
    | None => Returned None
    end;
  Returned (trades, fee, average, cost, price).

Definition parseOrder (this : exchange) (raw : value) (market : option market)
  : outcome order :=
  let created := parse8601 (JStr <$> safeString raw "createdAt" None) in
  let updated := parse8601 (JStr <$> safeString raw "updatedAt" None) in
  let marketId := safeString raw "symbol" None in
  let '(market, symbol) :=
    match marketId with
    | Some mid =>
        match market_by_id this mid with
        | Some m => (Some m, m_symbol m)
        | None => (market, Some mid)
        end
    | None => (market, None)
    end in
  let symbol :=
    match symbol, market with
    | None, Some m => m_id m
    | _, _ => symbol
    end in
  let amount := safeFloat raw "quantity" in
  let filled := safeFloat raw "cumQuantity" in
  let status := parseOrderStatus (safeString raw "status" None) in
  let id := safeString raw "clientOrderId" None in
  let clientOrderId := id in
  let price :=
    match safeFloat raw "price" with
    | Some p => Some p
    | None =>
        match orders this !! property_key id with
        | Some cached => o_price cached
        | None => None
        end
    end in
  let '(remaining, cost) :=
    match amount, filled with
    | Some a, Some f =>
        (Some (PrimFloat.sub a f),
         match price with
         | Some p => Some (PrimFloat.mul f p)
         | None => None
         end)
    | _, _ => (None, None)
    end in
  let type := safeString raw "type" None in
  let side := safeString raw "side" None in
  do '(trades, fee, average, cost, price) <-
    match safeValue raw "tradesReport" with
    | Some report =>
        do '(trades, fee, average, cost, price) <-
          parseOrder_fills this report market filled type price;
        Returned (Some trades, fee, average, cost, price)
    | None => Returned (None, None, None, cost, price)
    end;
  Returned {|
    o_id := id;
    o_clientOrderId := clientOrderId;
    o_timestamp := created;
    o_datetime := iso8601 created;
    o_lastTradeTimestamp := updated;
    o_status := status;
    o_symbol := symbol;
    o_type := type;
    o_side := side;
    o_price := price;
    o_average := average;
    o_amount := amount;
    o_cost := cost;
    o_filled := filled;
    o_remaining := remaining;
    o_fee := fee;
    o_trades := trades;
    o_info := raw;
  |}.

(** *** What the statements about [parseOrder] speak of *)

(** A value whose members can be read: anything but [null] and [undefined]. *)
Definition readable (v : value) : bool :=
  match v with
  | JUndefined | JNull => false
  | _ => true
  end.

(** The embedded fills of a raw order. *)
Definition fills_of (raw : value) : list value :=
  match safeValue raw "tradesReport" with
  | Some report => object_values report
  | None => []
  end.

(** The market [parseOrder] settles on: the member of the market table
    under the order's symbol id, listed or inherited, else the one it was
    given. *)
Definition order_market (this : exchange) (raw : value) (given : option market)
  : option market :=
  match safeString raw "symbol" None with
  | Some mid =>
      match market_by_id this mid with
      | Some m => Some m
      | None => given
      end
  | None => given
  end.

(** The price known before the fills are read: the order's own, else the
    cached order's. *)
Definition known_price (this : exchange) (raw : value) : number :=
  match safeFloat raw "price" with
  | Some p => Some p
  | None =>
      match orders this !! property_key (safeString raw "clientOrderId" None) with
      | Some cached => o_price cached
      | None => None
      end
  end.

(** Price times quantity of a raw fill, and its fee as the loop reads it. *)
Definition fill_cost (fill : value) : number :=
  Some (js_mul (safeFloat fill "price") (safeFloat fill "quantity")).

Definition fill_fee (fill : value) : number :=
  safeFloat_number (safeFloat fill "fee").

(** The running total of the base client's [sum] over a list, from a first
    value. *)
Definition sum_from (start : number) (xs : list number) : number :=
  fold_left (fun total x => sum [total; x]) xs start.

(** The symbol [parseOrder] reports: the unified symbol of the member of the
    market table under the order's symbol id, the symbol id itself when the
    table has no member under it, and the id of the market that was given
    when the order names no symbol (or the id of the member found when that
    has no unified symbol). *)
Definition order_symbol (this : exchange) (raw : value) (given : option market)
  : option string :=
  match safeString raw "symbol" None with
  | Some mid =>
      match market_by_id this mid with
      | Some m => match m_symbol m with
                  | Some s => Some s
                  | None => m_id m
                  end
      | None => Some mid
      end
  | None => match given with
            | Some m => m_id m
            | None => None
            end
  end.

(** The average and the price the fills leave, given their summed cost. *)
Definition fills_average (cost filled : number) : number :=
  match filled with
  | Some f => if PrimFloat.ltb 0 f then Some (js_div cost filled) else None
  | None => None
  end.

Definition fills_price (type : option string) (price cost filled : number) : number :=
  match filled with
  | Some f =>
      if PrimFloat.ltb 0 f then
        if bool_decide (type = Some "market")
        then match price with
             | None => Some (js_div cost filled)
             | Some _ => price
             end
        else price
      else price
  | None => price
  end.

(** The fee record, or the [TypeError] of reading [market['quote']] off an
    undefined market. *)
Definition fills_fee (feeCost : number) (market : option market) : outcome (option fee) :=
  match feeCost with
  | Some _ =>
      match market with
      | Some m => Returned (Some {| fee_cost := feeCost; fee_currency := m_quote m |})
      | None => type_error "Cannot read property 'quote' of undefined"
      end
  | None => Returned None
  end.

(** The fees of the fills that have one. *)
Definition fill_fees (raws : list value) : list number :=
  Some <$> omap fill_fee raws.

(** How a parsed fill relates to the raw one. *)
Definition parsed_from (raw : value) (t : trade) : Prop :=
  t_cost t = fill_cost raw /\ trade_fee_cost t = fill_fee raw.

(** ** sign *)

(** A word character of the pattern [{([\w-]+)}]. *)
Definition is_word_char (c : ascii) : bool :=
  let n := N_of_ascii c in
  ((48 <=? n) && (n <=? 57) || (65 <=? n) && (n <=? 90)
   || (97 <=? n) && (n <=? 122) || (n =? 95) || (n =? 45))%N.

(** Modelled from the spec: the base client's [extractParams] lives in
    ./base/Exchange, outside hitbtc.js ("path parameters are substituted into
    the URL template"). It lists the names written [{name}] in a path
    template; [inside] holds the name read so far after an opening brace. *)
Fixpoint extractParams_from (inside : option string) (path : string) : list string :=
  match path with
  | EmptyString => []
  | String c tl =>
      if Ascii.eqb c "{" then extractParams_from (Some EmptyString) tl
      else match inside with
           | Some name =>
               if Ascii.eqb c "}" then
                 (if String.eqb name EmptyString then [] else [name])
                 ++ extractParams_from None tl
               else if is_word_char c
                    then extractParams_from (Some (name +:+ String c EmptyString)) tl
                    else extractParams_from None tl
           | None => extractParams_from None tl
           end
  end.

Definition extractParams (path : string) : list string :=
  extractParams_from None path.

Definition base64_alphabet : string :=
  "ABCDEFGHIJKLMNOPQRSTUVWXYZabcdefghijklmnopqrstuvwxyz0123456789+/".

Definition base64_digit (n : N) : ascii :=
  match String.get (N.to_nat n) base64_alphabet with
  | Some c => c
  | None => "="%char
  end.

Fixpoint base64_bytes (bytes : list N) : string :=
  match bytes with
  | [] => EmptyString
  | [a] =>
      String (base64_digit (a / 4))
        (String (base64_digit (a mod 4 * 16)) "==")
  | [a; b] =>
      String (base64_digit (a / 4))
        (String (base64_digit (a mod 4 * 16 + b / 16))
           (String (base64_digit (b mod 16 * 4)) "="))
  | a :: b :: c :: tl =>
      String (base64_digit (a / 4))
        (String (base64_digit (a mod 4 * 16 + b / 16))
           (String (base64_digit (b mod 16 * 4 + c / 64))
              (String (base64_digit (c mod 64)) (base64_bytes tl))))
  end%N.

(** Modelled from the spec: the base client's [stringToBase64] lives in
    ./base/Exchange, outside hitbtc.js ("authentication uses HTTP Basic with
    base64-encoded key:secret"). It is the base64 encoding of the bytes of the
    string, padded. *)
Definition stringToBase64 (s : string) : string :=
  base64_bytes (map N_of_ascii (list_ascii_of_string s)).

(** A credential is present when it is a non-empty string. *)
Definition present (credential : option string) : bool :=
  match credential with
  | Some s => negb (String.eqb s EmptyString)
  | None => false
  end.

(** Modelled from the spec: the base client's [checkRequiredCredentials] lives
    in ./base/Exchange, outside hitbtc.js ("fails with an authentication error
    if credentials are absent"); the adapter requires the API key and the
    secret. *)
Definition checkRequiredCredentials (this : exchange) : outcome unit :=
  if negb (present (apiKey this))
  then throw AuthenticationError (this_id +:+ " requires `apiKey` credential")
  else if negb (present (secret this))
  then throw AuthenticationError (this_id +:+ " requires `secret` credential")
  else Returned tt.

(** The string of a possibly undefined string, as [+] coerces it. *)
Definition concat_operand (s : option string) : string := js_String (of_string s).

Definition sign (this : exchange) (path api method : string)
    (params : gmap string value)
    (headers : option (list (string * string))) (body : option string)
  : outcome request :=
  let url := "/api/" +:+ version +:+ "/" in
  let query := omit params (extractParams path) in
  do '(url, headers, body) <-
    (if String.eqb api "public" then
       let url := url +:+ api +:+ "/" +:+ implodeParams path params in
       let url := if bool_decide (query = ∅) then url
                  else url +:+ "?" +:+ urlencode query in
       Returned (url, headers, body)
     else
       do _ <- checkRequiredCredentials this;
       let url := url +:+ implodeParams path params in
       let '(url, body) :=
         if String.eqb method "GET" then
           (if bool_decide (query = ∅) then url
            else url +:+ "?" +:+ urlencode query, body)
         else if bool_decide (query = ∅) then (url, body)
         else (url, Some (json query)) in
       let payload := concat_operand (apiKey this) +:+ ":" +:+ concat_operand (secret this) in
       let auth := stringToBase64 payload in
       let headers := [ ("Authorization", "Basic " +:+ auth);
                        ("Content-Type", "application/json") ] in
       Returned (url, Some headers, body));
  let url := concat_operand (assoc api api_urls) +:+ url in
  Returned {| r_url := url; r_method := method; r_body := body; r_headers := headers |}.

(** Modelled from the spec: the endpoint methods the base client derives from
    the endpoint catalog are defined in ./base/Exchange, not in hitbtc.js ("a
    request-signing routine that the base client invokes"). Each signs its
    path and verb and hands the request to the transport. *)
Definition call (this : exchange) (path api method : string)
    (params : gmap string value) : outcome value :=
  do signed <- sign this path api method params None None;
  fetch signed.

Definition privatePostOrder (this : exchange) := call this "order" "private" "POST".
Definition privatePostAccountCryptoWithdraw (this : exchange) :=
  call this "account/crypto/withdraw" "private" "POST".

(** ** createOrder *)

(** Modelled from the spec: the base client's [market] lookup lives in
    ./base/Exchange, outside hitbtc.js ("market-metadata cache (symbol →
    market/currency lookup)"). *)
Definition market_of (this : exchange) (symbol : string) : outcome market :=
  match markets this !! symbol with
  | Some m => Returned m
  | None => throw BadSymbol (this_id +:+ " does not have market symbol " +:+ symbol)
  end.

(** Modelled from the spec: the base client's [currency] lookup lives in
    ./base/Exchange, outside hitbtc.js ("market-metadata cache (symbol →
    market/currency lookup)"). *)
Definition currency_of (this : exchange) (code : string) : outcome currency :=
  match currencies this !! code with
  | Some c => Returned c
  | None => throw ExchangeError (this_id +:+ " does not have currency code " +:+ code)
  end.

Definition remove_dashes (s : string) : string :=
  string_of_list_ascii
    (List.filter (fun c => negb (Ascii.eqb c "-")) (list_ascii_of_string s)).

(** The request object of [createOrder]; [uuid] is what [this.uuid ()]
    returned. *)
Definition createOrder_request (uuid : string) (market : market)
    (symbol type side : string) (amount : value) (price : value)
  : gmap string value :=
  let clientOrderId := substring 0 32 (remove_dashes uuid) in
  let amount := parseFloat amount in
  let request : gmap string value :=
    {[ "clientOrderId" := JStr clientOrderId;
       "symbol" := of_string (m_id market);
       "side" := JStr side;
       "quantity" := JStr (amountToPrecision symbol amount);
       "type" := JStr type ]} in
  if String.eqb type "limit"
  then <["price" := JStr (priceToPrecision symbol (defined (Some price)))]> request
  else <["timeInForce" := JStr defaultTimeInForce]> request.

Definition createOrder (this : exchange) (uuid : string)
    (symbol type side : string) (amount : value) (price : value)
    (params : gmap string value)
  : outcome (order * exchange) :=
  do market <- market_of this symbol;
  let request := createOrder_request uuid market symbol type side amount price in
  do response <- privatePostOrder this (extend request params);
  do order <- parseOrder this response None;
  if bool_decide (o_status order = Some "rejected")
  then throw InvalidOrder
         (this_id +:+ " order was rejected by the exchange " +:+ json_order order)
  else
    let id := o_id order in
    Returned (order, set_orders this (<[property_key id := order]> (orders this))).

(** ** withdraw *)

(** Modelled from the spec: the base client's [checkAddress] lives in
    ./base/Exchange, outside hitbtc.js; it rejects an undefined address and
    one the host finds invalid. *)
Definition checkAddress (address : option string) : outcome unit :=
  match address with
  | None => throw InvalidAddress (this_id +:+ " address is undefined")
  | Some a =>
      if validAddress a then Returned tt
      else throw InvalidAddress (this_id +:+ " address is invalid or has less than 1 characters: " +:+ a)
  end.

(** The request object of [withdraw]. *)
Definition withdraw_request (currency : currency) (amount : value)
    (address : option string) (tag : value) : gmap string value :=
  let request : gmap string value :=
    {[ "currency" := of_string (c_id currency);
       "amount" := JNum (parseFloat amount);
       "address" := of_string address ]} in
  if truthy tag then <["paymentId" := tag]> request else request.

Definition withdraw (this : exchange) (code : string) (amount : value)
    (address : option string) (tag : value) (params : gmap string value)
  : outcome withdrawal :=
  do _ <- checkAddress address;
  do currency <- currency_of this code;
  let request := withdraw_request currency amount address tag in
  do response <- privatePostAccountCryptoWithdraw this (extend request params);
  do response_id <- index response "id";
  Returned {| w_info := response; w_id := response_id |}.

(** The signed request [withdraw] hands to the transport. *)
Definition withdraw_signed (this : exchange) (code : string) (amount : value)
    (address : option string) (tag : value) (params : gmap string value)
  : outcome request :=
  do _ <- checkAddress address;
  do currency <- currency_of this code;
  sign this "account/crypto/withdraw" "private" "POST"
    (extend (withdraw_request currency amount address tag) params) None None.

(** ** handleErrors *)

(** Modelled from the spec: the base client's [throwExactlyMatchedException]
    is defined in ./base/Exchange, not in hitbtc.js ("exact-match lookup against a
    fixed code table"). *)
Definition throwExactlyMatchedException (exact : list (string * error_class))
    (code : option string) (message : string) : outcome unit :=
  match assoc (property_key code) exact with
  | Some class => throw class message
  | None => Returned tt
  end.

Definition starts_with_brace (body : string) : bool :=
  match body with
  | String c _ => Ascii.eqb c "{"
  | EmptyString => false
  end.

(** [code] is the HTTP status, [body] the raw answer and [response] its
    decoding, [undefined] when it could not be decoded; the other arguments
    of the source are not read.  [Returned tt] leaves the failure to the base
    client's default handler. *)
Definition handleErrors (code : Z) (body : string) (response : option value)
  : outcome unit :=
  match response with
  | None => Returned tt
  | Some response =>
      if (400 <=? code)%Z then
        let feedback := this_id +:+ " " +:+ body in
        if ((code =? 503) || (code =? 504))%Z
        then throw ExchangeNotAvailable feedback
        else if (code =? 429)%Z then Returned tt
        else
          do _ <-
            (if starts_with_brace body then
               do has_error <- js_in "error" response;
               if has_error : bool then
                 let error := default JUndefined (prop response "error") in
                 let errorCode := safeString error "code" None in
                 do _ <- throwExactlyMatchedException exceptions errorCode feedback;
                 let message := safeString error "message" None in
                 if bool_decide (message = Some "Duplicate clientOrderId")
                 then throw InvalidOrder feedback
                 else Returned tt
               else Returned tt
             else Returned tt);
          throw ExchangeError feedback
      else Returned tt
  end.

End Adapter.

(** ** The rest of the adapter

    The functions below are the other entry points that read the order
    cache, the market tables, the error table or the safe accessors. *)

(** What they ask of the engine and of the base client besides [Host]. *)
Class Base : Type := {
  (** [ToNumber], as the operator [>] applies it to what is not a number *)
  toNumber : value -> float;
  (** the members an index loop visits on an object that has a [length]
      member of its own *)
  indexed_members : list (string * value) -> list value;
  (** the base client's [safeCurrencyCode] *)
  safeCurrencyCode : exchange -> option string -> option currency -> option string;
  (** the base client's [filterBySinceLimit] *)
  filterBySinceLimit : list order -> option Z -> value -> list order;
}.

Record transaction : Type := Transaction {
  tx_info : value;
  tx_id : option string;
  tx_txid : option string;
  tx_timestamp : option Z;
  tx_datetime : option string;
  tx_address : option string;
  tx_tag : option string;
  tx_type : option string;
  tx_amount : number;
  tx_currency : option string;
  tx_status : option string;
  tx_updated : option Z;
  tx_fee : option fee;
}.

Record trading_fee : Type := TradingFee {
  tf_info : value;
  tf_maker : number;
  tf_taker : number;
}.

(** An entry of [fetchCurrencies] (its constant [limits] left aside). *)
Record currency_entry : Type := CurrencyEntry {
  ce_id : option string;
  ce_code : option string;
  ce_type : string;
  ce_payin : option value;
  ce_payout : option value;
  ce_transfer : option value;
  ce_info : value;
  ce_name : option string;
  ce_active : option value;
  ce_fee : number;
  ce_precision : Z;
}.

Section Rest.
Context {host : Host} {base : Base}.

(** *** Reading lists *)

(** The test [x.length > 0]. *)
Definition has_positive_length (x : value) : outcome bool :=
  match x with
  | JUndefined => type_error "Cannot read property 'length' of undefined"
  | JNull => type_error "Cannot read property 'length' of null"
  | JArr items => Returned match items with
                           | [] => false
                           | _ => true
                           end
  | JStr s => Returned (negb (String.eqb s EmptyString))
  | JObj _ =>
      Returned match prop x "length" with
               | None => false
               | Some (JNum n) => PrimFloat.ltb 0 n
               | Some v => PrimFloat.ltb 0 (toNumber v)
               end
  | JBool _ | JNum _ => Returned false
  end.

(** The member [x[0]]. *)
Definition first_member (x : value) : option value :=
  match x with
  | JArr items => defined (head items)
  | JStr (String c _) => Some (JStr (String c EmptyString))
  | JObj _ => prop x "0"
  | _ => None
  end.

(** The members [x[0]], [x[1]], ... that a loop [for (i = 0; i < x.length;
    i++)] visits. *)
Definition members (x : value) : outcome (list value) :=
  match x with
  | JUndefined => type_error "Cannot read property 'length' of undefined"
  | JNull => type_error "Cannot read property 'length' of null"
  | JArr items => Returned items
  | JStr s => Returned (map (fun c => JStr (String c EmptyString)) (list_ascii_of_string s))
  | JObj fields =>
      Returned match prop x "length" with
               | None => []
               | Some _ => indexed_members fields
               end
  | JBool _ | JNum _ => Returned []
  end.

(** A loop whose body may raise. *)
Fixpoint fold_outcome {A B : Type} (f : B -> A -> outcome B) (l : list A) (b : B)
  : outcome B :=
  match l with
  | [] => Returned b
  | a :: tl => do b' <- f b a; fold_outcome f tl b'
  end.

(** *** The endpoints used *)

Definition publicGetTicker (this : exchange) := call this "ticker" "public" "GET".
Definition publicGetTickerSymbol (this : exchange) :=
  call this "ticker/{symbol}" "public" "GET".
Definition privateGetHistoryOrder (this : exchange) :=
  call this "history/order" "private" "GET".
Definition privateGetOrderClientOrderId (this : exchange) :=
  call this "order/{clientOrderId}" "private" "GET".
Definition privateDeleteOrderClientOrderId (this : exchange) :=
  call this "order/{clientOrderId}" "private" "DELETE".
Definition privateGetTradingFeeSymbol (this : exchange) :=
  call this "trading/fee/{symbol}" "private" "GET".

(** *** fetchTradingFee *)

Definition fetchTradingFee_request (market : market) (params : gmap string value)
  : gmap string value :=
  extend {[ "symbol" := of_string (m_id market) ]} (omit params ["symbol"]).

Definition fetchTradingFee (this : exchange) (symbol : string)
    (params : gmap string value) : outcome trading_fee :=
  do market <- market_of this symbol;
  let request := fetchTradingFee_request market params in
  do response <- privateGetTradingFeeSymbol this request;
  Returned {| tf_info := response;
              tf_maker := safeFloat response "provideLiquidityRate";
              tf_taker := safeFloat response "takeLiquidityRate" |}.

(** *** fetchTickers and fetchTicker *)

(** One turn of the loop of [fetchTickers]. *)
Definition fetchTickers_step (this : exchange) (result : gmap string ticker)
    (raw : value) : outcome (gmap string ticker) :=
  match safeString raw "symbol" None with
  | Some marketId =>
      match market_by_id this marketId with
      | Some market =>
          let symbol := m_symbol market in
          do parsed <- parseTicker raw (Some market);
          Returned (<[property_key symbol := parsed]> result)
      | None =>
          do parsed <- parseTicker raw None;
          Returned (<[marketId := parsed]> result)
      end
  | None => Returned result
  end.

Definition fetchTickers (this : exchange) (symbols : value)
    (params : gmap string value) : outcome (gmap string ticker) :=
  do response <- publicGetTicker this params;
  do tickers <- members response;
  fold_outcome (fetchTickers_step this) tickers ∅.

Definition fetchTicker (this : exchange) (symbol : string)
    (params : gmap string value) : outcome ticker :=
  do market <- market_of this symbol;
  let request : gmap string value := {[ "symbol" := of_string (m_id market) ]} in
  do response <- publicGetTickerSymbol this (extend request params);
  do has_message <- js_in "message" response;
  if has_message : bool
  then throw ExchangeError
         (this_id +:+ " " +:+ js_String (default JUndefined (prop response "message")))
  else parseTicker response (Some market).

(** *** Transactions *)

Definition transaction_statuses : list (string * string) :=
  [ ("pending", "pending");
    ("failed", "failed");
    ("success", "ok") ].

Definition parseTransactionStatus (status : option string) : option string :=
  match assoc (property_key status) transaction_statuses with
  | Some unified => Some unified
  | None =>
      if inherited (property_key status)
      then Some (inherited_string (property_key status))
      else status
  end.

Definition transaction_types : list (string * string) :=
  [ ("payin", "deposit");
    ("payout", "withdrawal");
    ("withdraw", "withdrawal") ].

Definition parseTransactionType (type : option string) : option string :=
  match assoc (property_key type) transaction_types with
  | Some unified => Some unified
  | None =>
      if inherited (property_key type)
      then Some (inherited_string (property_key type))
      else type
  end.

Definition parseTransaction (this : exchange) (raw : value)
    (currency : option currency) : transaction :=
  let id := safeString raw "id" None in
  let timestamp := parse8601 (JStr <$> safeString raw "createdAt" None) in
  let updated := parse8601 (JStr <$> safeString raw "updatedAt" None) in
  let currencyId := safeString raw "currency" None in
  let code := safeCurrencyCode this currencyId currency in
  let status := parseTransactionStatus (safeString raw "status" None) in
  let amount := safeFloat raw "amount" in
  let address := safeString raw "address" None in
  let txid := safeString raw "hash" None in
  let feeCost := safeFloat raw "fee" in
  let fee := match feeCost with
             | Some _ => Some {| fee_cost := feeCost; fee_currency := code |}
             | None => None
             end in
  let type := parseTransactionType (safeString raw "type" None) in
  {| tx_info := raw;
     tx_id := id;
     tx_txid := txid;
     tx_timestamp := timestamp;
     tx_datetime := iso8601 timestamp;
     tx_address := address;
     tx_tag := None;
     tx_type := type;
     tx_amount := amount;
     tx_currency := code;
     tx_status := status;
     tx_updated := updated;
     tx_fee := fee |}.

(** *** fetchCurrencies *)

Definition truthy_member (x : option value) : bool :=
  match x with
  | Some v => truthy v
  | None => false
  end.

(** The operator [a && b] on members that may be undefined. *)
Definition js_and (a b : option value) : option value :=
  if truthy_member a then b else a.

(** The body of the loop of [fetchCurrencies]: the entry and its code. *)
Definition fetchCurrencies_entry (this : exchange) (raw : value) : outcome currency_entry :=
  let id := safeString raw "id" None in
  let precision := 8%Z in
  let code := safeCurrencyCode this id None in
  let payin := safeValue raw "payinEnabled" in
  let payout := safeValue raw "payoutEnabled" in
  let transfer := safeValue raw "transferEnabled" in
  let active := js_and (js_and payin payout) transfer in
  do has_disabled <- js_in "disabled" raw;
  let active := if (has_disabled : bool) && truthy_member (prop raw "disabled")
                then Some (JBool false)
                else active in
  do has_crypto <- js_in "crypto" raw;
  let type := if (has_crypto : bool) && truthy_member (prop raw "crypto")
              then "crypto"
              else "fiat" in
  let name := safeString raw "fullName" None in
  Returned {| ce_id := id;
              ce_code := code;
              ce_type := type;
              ce_payin := payin;
              ce_payout := payout;
              ce_transfer := transfer;
              ce_info := raw;
              ce_name := name;
              ce_active := active;
              ce_fee := safeFloat raw "payoutFee";
              ce_precision := precision |}.

Definition fetchCurrencies_step (this : exchange) (result : gmap string currency_entry)
    (raw : value) : outcome (gmap string currency_entry) :=
  do entry <- fetchCurrencies_entry this raw;
  Returned (<[property_key (ce_code entry) := entry]> result).

(** [fetchCurrencies] on the answer of the exchange. *)
Definition fetchCurrencies_parse (this : exchange) (response : value)
  : outcome (gmap string currency_entry) :=
  do raws <- members response;
  fold_outcome (fetchCurrencies_step this) raws ∅.

(** *** Orders: edit, cancel, fetch *)

Definition editOrder_request (uuid id symbol : string) (amount : option float)
    (price : value) : gmap string value :=
  let requestClientId := substring 0 32 (remove_dashes uuid) in
  let request : gmap string value :=
    {[ "clientOrderId" := JStr id;
       "requestClientId" := JStr requestClientId ]} in
  let request := match amount with
                 | Some a => <["quantity" := JStr (amountToPrecision symbol a)]> request
                 | None => request
                 end in
  match defined (Some price) with
  | Some _ => <["price" := JStr (priceToPrecision symbol (defined (Some price)))]> request
  | None => request
  end.


Definition cancelOrder (this : exchange) (id : string) (symbol : option string)
    (params : gmap string value) : outcome order :=
  let request : gmap string value := {[ "clientOrderId" := JStr id ]} in
  do response <- privateDeleteOrderClientOrderId this (extend request params);
  parseOrder this response None.

Definition fetchOrder (this : exchange) (id : string) (symbol : option string)
    (params : gmap string value) : outcome order :=
  let request : gmap string value := {[ "clientOrderId" := JStr id ]} in
  do response <- privateGetHistoryOrder this (extend request params);
  do numOrders_positive <- has_positive_length response;
  if numOrders_positive : bool
  then parseOrder this (default JUndefined (first_member response)) None
  else throw OrderNotFound (this_id +:+ " order " +:+ id +:+ " not found").

Definition fetchOpenOrder (this : exchange) (id : string) (symbol : option string)
    (params : gmap string value) : outcome order :=
  let request : gmap string value := {[ "clientOrderId" := JStr id ]} in
  do response <- privateGetOrderClientOrderId this (extend request params);
  parseOrder this response None.

(** Modelled from the spec: the base client's [parseOrders] lives in
    ./base/Exchange, outside hitbtc.js ("get order / open orders / closed
    orders").  With no [since] and no [limit], as [fetchClosedOrders] calls
    it, it parses every entry of the list with [parseOrder], in the order of
    the list. *)
Definition parseOrders (this : exchange) (raws : value) (market : option market)
  : outcome (list order) :=
  traverse (fun raw => parseOrder this raw market) (object_values raws).

(** The test of the loop of [fetchClosedOrders]. *)
Definition closed_or_canceled (o : order) : bool :=
  bool_decide (o_status o = Some "closed") || bool_decide (o_status o = Some "canceled").

(** The parsed orders [fetchClosedOrders] keeps, before the last filter. *)
Definition fetchClosedOrders_kept (this : exchange) (response : value)
    (market : option market) : outcome (list order) :=
  do parsedOrders <- parseOrders this response market;
  Returned (List.filter closed_or_canceled parsedOrders).

Definition fetchClosedOrders (this : exchange) (symbol : option string)
    (since : option Z) (limit : value) (params : gmap string value)
  : outcome (list order) :=
  do '(market, request) <-
    match symbol with
    | Some s =>
        do m <- market_of this s;
        Returned (Some m, ({[ "symbol" := of_string (m_id m) ]} : gmap string value))
    | None => Returned (None, (∅ : gmap string value))
    end;
  let request := match defined (Some limit) with
                 | Some _ => <["limit" := limit]> request
                 | None => request
                 end in
  let request := match since with
                 | Some _ => <["from" := of_string (iso8601 since)]> request
                 | None => request
                 end in
  do response <- privateGetHistoryOrder this (extend request params);
  do orders <- fetchClosedOrders_kept this response market;
  Returned (filterBySinceLimit orders since limit).

End Rest.

(** ** A reference host for the worked examples

    Its [parseFloat] reads plain decimal numerals ([-]digits[.digits]) of at
    most fifteen digits, on which one division of two exactly represented
    integers gives the correctly rounded binary64 value, as the engine does,
    and reads a number back as itself (negative zero as zero, whose string is
    "0"), as the engine's shortest round-trip printing guarantees.  It prints
    the numbers that are integers below 2^53 in magnitude, writes JSON and
    query strings of strings without escapes and of such integers, with the
    members in the order of their keys, reads no dates, and its transport
    answers every request with the same order.  The worked examples stay
    within this range. *)
Module Reference.

Definition digit_of (c : ascii) : option Z :=
  let n := Z.of_N (N_of_ascii c) in
  if ((48 <=? n) && (n <=? 57))%Z then Some (n - 48)%Z else None.

(** Reads the leading digits of [s] onto [acc]: the value, the number of
    digits read, and what is left. *)
Fixpoint read_digits (s : string) (acc : Z) (count : nat) : Z * nat * string :=
  match s with
  | EmptyString => (acc, count, s)
  | String c tl =>
      match digit_of c with
      | Some d => read_digits tl (10 * acc + d)%Z (S count)
      | None => (acc, count, s)
      end
  end.

Definition float_of_Z (z : Z) : float := of_uint63 (Uint63.of_Z z).

Definition read_decimal (s : string) : float :=
  let '(negative, s) :=
    match s with
    | String "-" tl => (true, tl)
    | _ => (false, s)
    end in
  let '(whole, n_whole, rest) := read_digits s 0 0 in
  let '(mantissa, n_fraction, rest) :=
    match rest with
    | String "." tl => read_digits tl whole 0
    | _ => (whole, 0%nat, rest)
    end in
  match rest with
  | EmptyString =>
      if (n_whole + n_fraction =? 0)%nat then nan
      else
        let magnitude :=
          PrimFloat.div (float_of_Z mantissa) (float_of_Z (10 ^ Z.of_nat n_fraction)) in
        if negative then PrimFloat.opp magnitude else magnitude
  | _ => nan
  end.

Definition read_float (x : value) : float :=
  match x with
  | JStr s => read_decimal s
  | JNum n => if is_zero n then 0%float else n
  | _ => nan
  end.

(** The integer a float stands for, when it is one. *)
Definition integer_of (n : float) : option Z :=
  match Prim2SF n with
  | S754_zero _ => Some 0%Z
  | S754_finite negative m e =>
      let magnitude :=
        if (0 <=? e)%Z then Some (Z.pos m * 2 ^ e)%Z
        else if (Z.pos m mod 2 ^ (- e) =? 0)%Z then Some (Z.pos m / 2 ^ (- e))%Z
        else None in
      (fun z => if negative then (- z)%Z else z) <$> magnitude
  | _ => None
  end.

Definition print_integer (n : float) : string :=
  match integer_of n with
  | Some z => pretty z
  | None => "NaN"
  end.

(** The double quote. *)
Definition dq : string := String (ascii_of_nat 34) EmptyString.

Definition join (separator : string) (parts : list string) : string :=
  match parts with
  | [] => EmptyString
  | first :: rest => fold_left (fun text part => text +:+ separator +:+ part) rest first
  end.

(** [JSON.stringify] on strings without escapes and integers; a member
    bound to [undefined] is left out. *)
Fixpoint stringify (x : value) : string :=
  match x with
  | JUndefined | JNull => "null"
  | JBool true => "true"
  | JBool false => "false"
  | JNum n => print_integer n
  | JStr s => dq +:+ s +:+ dq
  | JArr items => "[" +:+ join "," (map stringify items) +:+ "]"
  | JObj fields =>
      "{" +:+ join ","
        ((fix members (l : list (string * value)) : list string :=
            match l with
            | [] => []
            | (k, JUndefined) :: tl => members tl
            | (k, v) :: tl => (dq +:+ k +:+ dq +:+ ":" +:+ stringify v) :: members tl
            end) fields)
      +:+ "}"
  end.

(** The members of a request object, in the order of the keys. *)
Definition stringify_map (m : gmap string value) : string :=
  stringify (JObj (map_to_list m)).

Definition print_value (x : value) : string :=
  match x with
  | JStr s => s
  | JNum n => print_integer n
  | _ => stringify x
  end.

Definition print_query (m : gmap string value) : string :=
  join "&" ((fun '(k, v) => k +:+ "=" +:+ print_value v) <$> map_to_list m).

(** [s] with the first occurrence of [pattern] replaced. *)
Fixpoint replace_first (pattern replacement s : string) : string :=
  if String.prefix pattern s
  then replacement +:+ substring (String.length pattern) (String.length s) s
  else match s with
       | EmptyString => EmptyString
       | String c tl => String c (replace_first pattern replacement tl)
       end.

Definition implode (path : string) (params : gmap string value) : string :=
  fold_left (fun path '(k, v) => replace_first ("{" +:+ k +:+ "}") (print_value v) path)
    (map_to_list params) path.

(** The text of a built-in function after the keyword, as V8 prints it;
    [Object.prototype.constructor] is the function [Object]. *)
Definition native_function (k : string) : string :=
  " " +:+ (if String.eqb k "constructor" then "Object" else k)
  +:+ "() { [native code] }".

(** The order the transport answers with. *)
Definition accepted : value :=
  JObj [ ("id", JStr "66799540063");
         ("clientOrderId", JStr "fe36aa5e190149bf9985fb673bbb2ea0");
         ("symbol", JStr "ETHBTC");
         ("side", JStr "sell");
         ("status", JStr "new");
         ("type", JStr "limit");
         ("quantity", JStr "1");
         ("price", JStr "50");
         ("cumQuantity", JStr "0") ].

#[export] Instance host : Host := {|
  parseFloat := read_float;
  numberToString := print_integer;
  nativeFunction := native_function;
  engineMessage := fun description => description;
  dateParse := fun _ => None;
  iso8601 := fun _ => None;
  implodeParams := implode;
  urlencode := print_query;
  json := stringify_map;
  json_order := fun o => stringify (JObj [("id", of_string (o_id o));
                                          ("status", of_string (o_status o))]);
  amountToPrecision := fun _ amount => print_integer amount;
  priceToPrecision := fun _ price =>
    match price with
    | Some x => print_value x
    | None => "NaN"
    end;
  validAddress := fun a => negb (String.eqb a EmptyString);
  fetch := fun _ => Returned accepted;
|}.

End Reference.

(** ** Worked examples: a session and some raw records *)
Module Examples.

Definition eth_btc : market :=
  {| m_id := Some "ETHBTC"; m_symbol := Some "ETH/BTC"; m_base := Some "ETH";
     m_quote := Some "BTC"; m_feeCurrency := Some "BTC" |}.

(** A cached order of which only the id and the price matter. *)
Definition cached (id : string) (price : number) : order :=
  {| o_id := Some id; o_clientOrderId := Some id; o_timestamp := None;
     o_datetime := None; o_lastTradeTimestamp := None; o_status := Some "open";
     o_symbol := Some "ETH/BTC"; o_type := Some "market"; o_side := Some "buy";
     o_price := price; o_average := None; o_amount := Some 2%float;
     o_cost := None; o_filled := Some 0%float; o_remaining := Some 2%float;
     o_fee := None; o_trades := None; o_info := JNull |}.

(** The adapter after [loadMarkets], with credentials and two cached orders:
    one with price 50, one, a market order, with no price yet. *)
Definition session : exchange :=
  {| apiKey := Some "key";
     secret := Some "secret";
     markets := {[ "ETH/BTC" := eth_btc ]};
     markets_by_id := {[ "ETHBTC" := eth_btc ]};
     currencies := {[ "ETH" := {| c_id := Some "ETH"; c_code := Some "ETH" |} ]};
     orders := {[ "27b9bfc068b44194b1f453c7af511ed6" :=
                    cached "27b9bfc068b44194b1f453c7af511ed6" (Some 50%float);
                  "f8dbaab336d44d5ba3ff578098a68454" :=
                    cached "f8dbaab336d44d5ba3ff578098a68454" None ]} |}.

(** The same adapter without credentials. *)
Definition anonymous : exchange :=
  {| apiKey := None; secret := None; markets := markets session;
     markets_by_id := markets_by_id session; currencies := currencies session;
     orders := orders session |}.

(** Two fills: 1 at 100 with fee 0.1, and 1 at 102 with fee 0.2. *)
Definition two_fills : value :=
  JArr [ JObj [("id", JNum 386394956); ("price", JStr "100"); ("quantity", JStr "1");
               ("fee", JStr "0.1")];
         JObj [("id", JNum 386394957); ("price", JStr "102"); ("quantity", JStr "1");
               ("fee", JStr "0.2")] ].

(** A filled market order with the two fills, as the exchange reports it:
    with no price.  [id] is its client order id, [symbol] its symbol id. *)
Definition filled_order (id symbol : string) : value :=
  JObj [ ("clientOrderId", JStr id);
         ("symbol", JStr symbol);
         ("side", JStr "buy");
         ("status", JStr "filled");
         ("type", JStr "market");
         ("quantity", JStr "2");
         ("cumQuantity", JStr "2");
         ("tradesReport", two_fills) ].

(** An open order with no price, no symbol and no fills. *)
Definition bare_order (id : string) : value :=
  JObj [ ("clientOrderId", JStr id);
         ("side", JStr "buy");
         ("status", JStr "new");
         ("type", JStr "market");
         ("quantity", JStr "2");
         ("cumQuantity", JStr "0") ].

(** A fill with no symbol. *)
Definition bare_fill : value :=
  JObj [("id", JNum 386394956); ("price", JStr "100"); ("quantity", JStr "1")].

(** The gateway's timeout answer, raw and decoded. *)
Definition gateway_timeout_body : string :=
  Eval cbv in
    Reference.stringify
      (JObj [("error", JObj [("code", JNum 504); ("message", JStr "Gateway Timeout")])]).

Definition gateway_timeout : value :=
  JObj [("error", JObj [("code", JNum 504); ("message", JStr "Gateway Timeout")])].

Definition address : string := "0xC5a59b21948C1d230c8C54f05590000Eb3e1252c".

End Examples.

(** ** Further worked examples: other answers of the exchange *)
Module Further.

(** The reference host with a transport that answers every request with
    [answer]. *)
Definition answering (answer : value) : Host :=
  {| parseFloat := Reference.read_float;
     numberToString := Reference.print_integer;
     nativeFunction := Reference.native_function;
     engineMessage := fun description => description;
     dateParse := fun _ => None;
     iso8601 := fun _ => None;
     implodeParams := Reference.implode;
     urlencode := Reference.print_query;
     json := Reference.stringify_map;
     json_order := fun o => Reference.stringify
                              (JObj [("id", of_string (o_id o));
                                     ("status", of_string (o_status o))]);
     amountToPrecision := fun _ amount => Reference.print_integer amount;
     priceToPrecision := fun _ price =>
       match price with
       | Some x => Reference.print_value x
       | None => "NaN"
       end;
     validAddress := fun a => negb (String.eqb a EmptyString);
     fetch := fun _ => Returned answer |}.

(** A base client that knows no currency codes but the ids themselves and
    keeps every order in its last filter. *)
Definition base : Base :=
  {| toNumber := Reference.read_float;
     indexed_members := fun _ => [];
     safeCurrencyCode := fun _ id currency =>
       match id with
       | Some s => Some s
       | None => match currency with
                 | Some c => c_code c
                 | None => None
                 end
       end;
     filterBySinceLimit := fun orders _ _ => orders |}.

(** An order of the history, by client order id and raw status. *)
Definition reported (id status : string) : value :=
  JObj [ ("clientOrderId", JStr id);
         ("symbol", JStr "ETHBTC");
         ("side", JStr "sell");
         ("status", JStr status);
         ("type", JStr "limit");
         ("quantity", JStr "1");
         ("price", JStr "50");
         ("cumQuantity", JStr "0") ].

Definition history : value :=
  JArr [ reported "a1" "filled"; reported "a2" "partiallyFilled";
         reported "a3" "canceled"; reported "a4" "expired"; reported "a5" "new" ].

Definition tickers : value :=
  JArr [ JObj [("symbol", JStr "ETHBTC"); ("last", JStr "110"); ("open", JStr "100")];
         JNull;
         JObj [("last", JStr "7")];
         JObj [("symbol", JStr "XRPUSDT"); ("last", JStr "3")];
         JObj [("symbol", JStr "toString"); ("last", JStr "5")] ].

Definition listed_currency : value :=
  JObj [ ("id", JStr "DDF"); ("fullName", JStr "DDF"); ("crypto", JBool true);
         ("payinEnabled", JBool false); ("payoutEnabled", JBool true);
         ("transferEnabled", JBool true); ("delisted", JBool false);
         ("payoutFee", JStr "646") ].

Definition payout : value :=
  JObj [ ("id", JStr "d53ee9df-89bf-4d09-886e-849f8be64647");
         ("type", JStr "payout"); ("status", JStr "success");
         ("currency", JStr "ETH"); ("amount", JStr "4");
         ("fee", JStr "0.5") ].

(** Two error answers: a listed code, and an unlisted one with the message
    of a reused client order id. *)
Definition insufficient_funds : value :=
  JObj [("error", JObj [("code", JNum 20001); ("message", JStr "Insufficient funds")])].

Definition duplicate : value :=
  JObj [("error", JObj [("code", JNum 20008);
                        ("message", JStr "Duplicate clientOrderId")])].

(** An order the exchange names both by its own id and by the client's. *)
Definition named_twice : value :=
  JObj [ ("id", JNum 828680665);
         ("clientOrderId", JStr "f4307c6e507e49019907c917b6d7a084");
         ("symbol", JStr "ETHBTC");
         ("status", JStr "partiallyFilled");
         ("quantity", JStr "13");
         ("price", JStr "50");
         ("cumQuantity", JStr "5") ].

(** A filled quantity and a price, but no quantity ordered. *)
Definition no_quantity : value :=
  JObj [ ("clientOrderId", JStr "a6"); ("price", JStr "50"); ("cumQuantity", JStr "1") ].

(** An order with a list of fills, [symbol] its symbol id. *)
Definition with_fills (symbol : string) (fills : list value) : value :=
  JObj [ ("clientOrderId", JStr "a7"); ("symbol", JStr symbol);
         ("quantity", JStr "1"); ("price", JStr "50"); ("cumQuantity", JStr "1");
         ("tradesReport", JArr fills) ].

(** A fill of a market the adapter has not listed. *)
Definition foreign_fill : value :=
  JObj [ ("id", JNum 9535486); ("clientOrderId", JStr "a8"); ("symbol", JStr "XRPUSDT");
         ("price", JStr "3"); ("quantity", JStr "2"); ("fee", JStr "1") ].

(** A fill whose symbol id is a name every object inherits. *)
Definition inherited_fill : value :=
  JObj [ ("id", JNum 9535487); ("clientOrderId", JStr "a8");
         ("symbol", JStr "constructor");
         ("price", JStr "3"); ("quantity", JStr "2"); ("fee", JStr "1") ].

Definition symbol_not_found : value :=
  JObj [("message", JStr "Symbol not found")].

End Further.

(** * Properties *)

(** ** Binary64 facts the proofs use *)

Section FloatFacts.

Lemma Prim2SF_zero : Prim2SF 0%float = S754_zero false.
Proof. reflexivity. Qed.

Lemma Prim2SF_neg_zero : Prim2SF neg_zero = S754_zero true.
Proof. reflexivity. Qed.

Lemma Prim2SF_nan : Prim2SF nan = S754_nan.
Proof. reflexivity. Qed.

Lemma neg_zero_of_spec (x : float) : Prim2SF x = S754_zero true -> x = neg_zero.
Proof. intros E. apply Prim2SF_inj. now rewrite E. Qed.

(** Adding to positive zero changes nothing but the sign of negative zero. *)
Lemma add_zero_l (x : float) : x <> neg_zero -> PrimFloat.add 0 x = x.
Proof.
  intros Hx. apply Prim2SF_inj. rewrite FloatAxioms.add_spec, Prim2SF_zero.
  unfold SF64add, SFadd.
  destruct (Prim2SF x) as [[|]| | |] eqn:E; try reflexivity.
  now destruct Hx; apply neg_zero_of_spec.
Qed.

Lemma add_neg_zero_l (x : float) : PrimFloat.add neg_zero x = x.
Proof.
  apply Prim2SF_inj. rewrite FloatAxioms.add_spec, Prim2SF_neg_zero.
  unfold SF64add, SFadd.
  now destruct (Prim2SF x) as [[|]| | |].
Qed.

(** A number above zero is not a zero. *)
Lemma ltb_zero_nonzero (x : float) : PrimFloat.ltb 0 x = true -> is_zero x = false.
Proof.
  unfold is_zero. rewrite FloatAxioms.ltb_spec, FloatAxioms.eqb_spec, Prim2SF_zero.
  unfold SFltb, SFeqb.
  destruct (Prim2SF x) as [[|]|[|]| |[|] m e]; simpl; congruence.
Qed.

(** [NaN] absorbs a product. *)
Lemma mul_nan_l (y : float) : PrimFloat.mul nan y = nan.
Proof.
  apply Prim2SF_inj. rewrite FloatAxioms.mul_spec, Prim2SF_nan. reflexivity.
Qed.

Lemma mul_nan_r (x : float) : PrimFloat.mul x nan = nan.
Proof.
  apply Prim2SF_inj. rewrite FloatAxioms.mul_spec, Prim2SF_nan.
  unfold SF64mul, SFmul. now destruct (Prim2SF x).
Qed.

Lemma sum_two (l o : float) :
  is_finite l = true -> is_finite o = true ->
  sum [Some l; Some o] = Some (PrimFloat.add (PrimFloat.add 0 l) o).
Proof. intros Hl Ho. unfold sum. simpl. now rewrite Hl, Ho. Qed.

(** On two finite numbers [sum] is their binary64 sum, but for the sign of
    the zero it gives on two negative zeros. *)
Lemma sum_two_add (l o : float) :
  is_finite l = true -> is_finite o = true ->
  sum [Some l; Some o] = Some (PrimFloat.add l o)
  \/ (l = neg_zero /\ o = neg_zero /\ sum [Some l; Some o] = Some 0%float).
Proof.
  intros Hl Ho. rewrite (sum_two l o Hl Ho).
  destruct (PrimFloat.Leibniz.eqb l neg_zero) eqn:El.
  - apply Leibniz.eqb_spec in El. subst l.
    destruct (PrimFloat.Leibniz.eqb o neg_zero) eqn:Eo.
    + apply Leibniz.eqb_spec in Eo. subst o. right. repeat split; reflexivity.
    + left. f_equal. rewrite add_neg_zero_l.
      change (PrimFloat.add 0 neg_zero) with 0%float.
      apply add_zero_l. intros ->.
      now rewrite (proj2 (Leibniz.eqb_spec _ _) eq_refl) in Eo.
  - left. do 2 f_equal. apply add_zero_l. intros ->.
    now rewrite (proj2 (Leibniz.eqb_spec _ _) eq_refl) in El.
Qed.

End FloatFacts.

(** ** The accessors *)

Section AccessorFacts.
Context {host : Host}.

Lemma finite_Some (n f : float) : finite n = Some f -> n = f /\ is_finite f = true.
Proof.
  unfold finite. destruct (is_finite n) eqn:E; [|discriminate].
  intros [= <-]. now split.
Qed.

Lemma safeFloat_finite (o : value) (k : string) (f : float) :
  safeFloat o k = Some f -> is_finite f = true.
Proof.
  unfold safeFloat. destruct (prop o k) as [[| | |n|s| |]|]; try discriminate.
  - destruct (is_finite n); [|discriminate]. intros H. now apply finite_Some in H.
  - intros H. now apply finite_Some in H.
Qed.

Lemma safeFloat_number_finite (x : number) (f : float) :
  safeFloat_number x = Some f -> is_finite f = true.
Proof.
  destruct x as [n|]; [|discriminate]. simpl.
  destruct (is_finite n); [|discriminate]. intros H. now apply finite_Some in H.
Qed.

(** A field that is not there reads as [undefined] through every accessor. *)
Lemma safeFloat_missing (o : value) (k : string) : prop o k = None -> safeFloat o k = None.
Proof. unfold safeFloat. now intros ->. Qed.

Lemma safeString_missing (o : value) (k : string) :
  prop o k = None -> safeString o k None = None.
Proof. unfold safeString. now intros ->. Qed.

End AccessorFacts.

(** ** parseTicker *)

Section Ticker.
Context {host : Host}.

(** A field computed under the guard [0 < denominator]. *)
Lemma guarded_iff (x d : float) (g : float -> float -> float) (r : float) :
  (if PrimFloat.ltb 0 d then Some (g x d) else None) = Some r <->
  exists x' d', Some x = Some x' /\ Some d = Some d'
                /\ PrimFloat.ltb 0 d' = true /\ is_zero d' = false /\ r = g x' d'.
Proof.
  destruct (PrimFloat.ltb 0 d) eqn:Hpos; split.
  - intros [= <-]. exists x, d. repeat split; [exact Hpos|now apply ltb_zero_nonzero].
  - intros (x' & d' & [= <-] & [= <-] & _ & _ & ->). reflexivity.
  - discriminate.
  - intros (x' & d' & _ & [= <-] & Hlt & _). congruence.
Qed.

(** C4.  For every raw ticker record, [parseTicker] returns a ticker whose
    derived fields are set exactly as follows: [change = last - open] when
    [last] and [open] are both defined; [average = (last + open) / 2] under
    the same condition (a positive zero when both are negative zeros, which
    [===] does not tell from the negative zero of the formula);
    [percentage = change / open * 100] when moreover [open] is above zero,
    hence not zero; [vwap = quoteVolume / baseVolume] when both volumes are
    defined and [baseVolume] is above zero, hence not zero.  In every other
    case the field is left unset.  With the reference host, [last = 110] and
    [open = 100] give change 10, average 105 and percentage 10, and
    [open = 0] leaves the percentage unset. *)
Theorem parseTicker_derived_fields (fields : list (string * value)) (market : option market) :
  let raw := JObj fields in
  exists tk, parseTicker raw market = Returned tk
    /\ (forall c, tk_change tk = Some c <->
          exists l o, safeFloat raw "last" = Some l /\ safeFloat raw "open" = Some o
                      /\ c = PrimFloat.sub l o)
    /\ (forall a, tk_average tk = Some a ->
          exists l o, safeFloat raw "last" = Some l /\ safeFloat raw "open" = Some o
                      /\ (a = PrimFloat.div (PrimFloat.add l o) 2
                          \/ (l = neg_zero /\ o = neg_zero /\ a = 0%float)))
    /\ (forall l o, safeFloat raw "last" = Some l -> safeFloat raw "open" = Some o ->
          is_Some (tk_average tk))
    /\ (forall p, tk_percentage tk = Some p <->
          exists l o, safeFloat raw "last" = Some l /\ safeFloat raw "open" = Some o
                      /\ PrimFloat.ltb 0 o = true /\ is_zero o = false
                      /\ p = PrimFloat.mul (PrimFloat.div (PrimFloat.sub l o) o) 100)
    /\ (forall v, tk_vwap tk = Some v <->
          exists q b, safeFloat raw "volumeQuote" = Some q /\ safeFloat raw "volume" = Some b
                      /\ PrimFloat.ltb 0 b = true /\ is_zero b = false
                      /\ v = PrimFloat.div q b)
    /\ (tk_change <$> @parseTicker Reference.host
          (JObj [("last", JStr "110"); ("open", JStr "100")]) None = Returned (Some 10%float)
        /\ tk_average <$> @parseTicker Reference.host
          (JObj [("last", JStr "110"); ("open", JStr "100")]) None = Returned (Some 105%float)
        /\ tk_percentage <$> @parseTicker Reference.host
          (JObj [("last", JStr "110"); ("open", JStr "100")]) None = Returned (Some 10%float)
        /\ tk_percentage <$> @parseTicker Reference.host
          (JObj [("last", JStr "110"); ("open", JStr "0")]) None = Returned None).
Proof.
  intros raw. unfold parseTicker. simpl.
  destruct (safeFloat raw "last") as [l|] eqn:Hl;
    destruct (safeFloat raw "open") as [o|] eqn:Ho;
    destruct (safeFloat raw "volumeQuote") as [q|] eqn:Hq;
    destruct (safeFloat raw "volume") as [b|] eqn:Hb.
  all: eexists; split; [reflexivity|]; simpl.
  all: split;
    [intros c; split; [intros [= <-]; eauto | intros (? & ? & ? & ? & ?); congruence]|].
  all: first
    [ split;
      [intros a [= <-]; exists l, o; repeat split;
       destruct (sum_two_add l o (safeFloat_finite _ _ _ Hl) (safeFloat_finite _ _ _ Ho))
         as [-> | (-> & -> & ->)]; [now left | now right] | ]
    | split; [discriminate|] ].
  all: split; [intros; first [eauto | discriminate]|].
  all: split;
    [first [ apply (guarded_iff _ _
                      (fun l o => PrimFloat.mul (PrimFloat.div (PrimFloat.sub l o) o) 100))
           | intros p; split; [discriminate | intros (? & ? & ? & ? & ?); congruence] ]|].
  all: split;
    [first [ apply (guarded_iff _ _ PrimFloat.div)
           | intros p; split; [discriminate | intros (? & ? & ? & ? & ?); congruence] ]|].
  all: repeat split; reflexivity.
Qed.

End Ticker.

(** ** parseOrderStatus *)

Section OrderStatus.
Context {host : Host}.

Lemma assoc_statuses_other (s : string) :
  ~ In s status_names -> assoc s statuses = None.
Proof.
  intros Hs. unfold statuses. simpl.
  repeat match goal with
         | |- context [String.eqb s ?k] =>
             destruct (String.eqb_spec s k) as [->|_];
             [exfalso; apply Hs; simpl; tauto|]
         end.
  reflexivity.
Qed.

(** The inherited names, one by one. *)
Lemma inherited_In (s : string) : inherited s = true -> In s Object_prototype.
Proof.
  unfold inherited. rewrite existsb_exists. intros (k & Hk & Heq).
  apply String.eqb_eq in Heq. now subst.
Qed.

(** No inherited name is a key of the status table, and the string of an
    inherited member is not its name. *)
Lemma inherited_not_status (s : string) :
  inherited s = true ->
  assoc s statuses = None /\ String.eqb (inherited_string s) s = false.
Proof.
  intros Hs. apply inherited_In in Hs. simpl in Hs.
  repeat (destruct Hs as [<-|Hs]; [split; reflexivity|]). destruct Hs.
Qed.

(** C5.  [parseOrderStatus] maps "new", "suspended" and "partiallyFilled" to
    "open", "filled" to "closed", "canceled" to "canceled", "expired" to
    "failed", and gives any other status string back unchanged unless it is
    the name of a member the table inherits from [Object.prototype]: for
    such a name it gives the string of the inherited member, which is not the
    name.  For "constructor" that is the text of the function [Object]. *)
Theorem parseOrderStatus_table (s : string) :
  (s = "new" \/ s = "suspended" \/ s = "partiallyFilled" ->
     parseOrderStatus (Some s) = Some "open")
  /\ (s = "filled" -> parseOrderStatus (Some s) = Some "closed")
  /\ (s = "canceled" -> parseOrderStatus (Some s) = Some "canceled")
  /\ (s = "expired" -> parseOrderStatus (Some s) = Some "failed")
  /\ (~ In s status_names -> inherited s = false -> parseOrderStatus (Some s) = Some s)
  /\ (inherited s = true ->
        parseOrderStatus (Some s) = Some (inherited_string s)
        /\ String.eqb (inherited_string s) s = false)
  /\ parseOrderStatus (Some "constructor")
     = Some ("function" +:+ nativeFunction "constructor").
Proof.
  split; [|split; [|split; [|split; [|split; [|split]]]]].
  - intros [-> | [-> | ->]]; reflexivity.
  - intros ->; reflexivity.
  - intros ->; reflexivity.
  - intros ->; reflexivity.
  - intros Hs Hown. unfold parseOrderStatus, property_key.
    now rewrite (assoc_statuses_other s Hs), Hown.
  - intros Hs. destruct (inherited_not_status s Hs) as [Htable Htext].
    unfold parseOrderStatus, property_key. rewrite Htable, Hs. now split.
  - reflexivity.
Qed.

(** An undefined status stays undefined. *)
Lemma parseOrderStatus_undefined : parseOrderStatus None = None.
Proof. reflexivity. Qed.

End OrderStatus.

Lemma parseOrderStatus_table_witness :
  @parseOrderStatus Reference.host (Some "filled") = Some "closed"
  /\ @parseOrderStatus Reference.host (Some "partiallyFilled") = Some "open"
  /\ @parseOrderStatus Reference.host (Some "rejected") = Some "rejected"
  /\ @parseOrderStatus Reference.host (Some "constructor")
     = Some "function Object() { [native code] }".
Proof.
  split; [|split; [|split]].
  - apply (@parseOrderStatus_table Reference.host "filled"). reflexivity.
  - apply (@parseOrderStatus_table Reference.host "partiallyFilled").
    right. right. reflexivity.
  - apply (@parseOrderStatus_table Reference.host "rejected"); [|reflexivity].
    simpl. intros H. repeat (destruct H as [H|H]; [discriminate H|]). exact H.
  - apply (@parseOrderStatus_table Reference.host "constructor").
Defined.

(** ** parseTrade *)

Section Trades.
Context {host : Host}.

Lemma js_mul_undefined_l (y : number) : js_mul None y = nan.
Proof. apply mul_nan_l. Qed.

Lemma js_mul_undefined_r (x : number) : js_mul x None = nan.
Proof. apply mul_nan_r. Qed.

(** What [parseTrade] gives on a value whose members can be read. *)
Lemma parseTrade_readable (this : exchange) (raw : value) (market : option market) :
  readable raw = true ->
  exists t, parseTrade this raw market = Returned t
    /\ t_price t = safeFloat raw "price"
    /\ t_amount t = safeFloat raw "quantity"
    /\ t_cost t = fill_cost raw
    /\ trade_fee_cost t = fill_fee raw.
Proof.
  intros Hraw. unfold parseTrade.
  assert (index raw "timestamp" = Returned (prop raw "timestamp")) as ->
    by (destruct raw; try discriminate; reflexivity).
  simpl.
  destruct (safeString raw "symbol" None) as [mid|];
    [destruct (market_by_id this mid)|]; simpl.
  all: eexists; split; [reflexivity|]; simpl.
  all: repeat split; unfold trade_fee_cost, fill_fee; simpl.
  all: destruct (safeFloat raw "fee"); reflexivity.
Qed.

(** C6.  For every raw trade record, [parseTrade] returns a trade whose price
    and amount are the record's, unset when absent, and whose cost is always
    the product [price * quantity]: the product of the two numbers when both
    are present, and [NaN], not unset, when either is absent.  With the
    reference host, a record with a quantity and no price has cost [NaN]. *)
Theorem parseTrade_cost (this : exchange) (fields : list (string * value))
    (market : option market) :
  let raw := JObj fields in
  exists t, parseTrade this raw market = Returned t
    /\ t_price t = safeFloat raw "price"
    /\ t_amount t = safeFloat raw "quantity"
    /\ (forall p q, t_price t = Some p -> t_amount t = Some q ->
          t_cost t = Some (PrimFloat.mul p q))
    /\ (t_price t = None \/ t_amount t = None -> t_cost t = Some nan)
    /\ (t_cost <$> @parseTrade Reference.host this
          (JObj [("id", JNum 386394956); ("quantity", JStr "1")]) market
        = Returned (Some nan)).
Proof.
  intros raw.
  destruct (parseTrade_readable this raw market eq_refl) as (t & Ht & Hp & Hq & Hc & _).
  exists t. repeat split; try assumption.
  - intros p q Ep Eq. rewrite Hc. unfold fill_cost.
    rewrite <- Hp, <- Hq, Ep, Eq. reflexivity.
  - intros [E|E]; rewrite Hc; unfold fill_cost; f_equal.
    + rewrite <- Hp, E. apply js_mul_undefined_l.
    + rewrite <- Hq, E. apply js_mul_undefined_r.
Qed.

End Trades.

(** ** parseOrder *)

Section Orders.
Context {host : Host}.

Lemma parseOrder_fills_eq (this : exchange) (report : value) (market : option market)
    (filled : number) (type : option string) (price : number)
    (ts : list trade) (feeCost cost : number) :
  parseTrades this report market = Returned ts ->
  fold_left fills_step ts (None, Some 0%float) = (feeCost, cost) ->
  parseOrder_fills this report market filled type price =
  do fee <- fills_fee feeCost market;
  Returned (ts, fee, fills_average cost filled, cost, fills_price type price cost filled).
Proof.
  intros Hts Hfold. unfold parseOrder_fills. rewrite Hts. simpl. rewrite Hfold.
  unfold fills_average, fills_price, fills_fee.
  destruct filled as [f|]; [destruct (PrimFloat.ltb 0 f)|]; reflexivity.
Qed.

(** What a returned order holds, in terms of the block over the fills. *)
Lemma parseOrder_returned (this : exchange) (raw : value) (market : option market)
    (o : order) :
  parseOrder this raw market = Returned o ->
  o_symbol o = order_symbol this raw market
  /\ o_filled o = safeFloat raw "cumQuantity"
  /\ o_type o = safeString raw "type" None
  /\ match safeValue raw "tradesReport" with
     | Some report =>
         exists ts,
           parseOrder_fills this report (order_market this raw market)
             (safeFloat raw "cumQuantity") (safeString raw "type" None)
             (known_price this raw)
           = Returned (ts, o_fee o, o_average o, o_cost o, o_price o)
           /\ o_trades o = Some ts
     | None => o_price o = known_price this raw /\ o_fee o = None
               /\ o_average o = None /\ o_trades o = None
     end.
Proof.
  unfold parseOrder, order_symbol, order_market, known_price.
  destruct (safeString raw "symbol" None) as [mid|];
    [destruct (market_by_id this mid) as [m|]|].
  all: destruct (safeFloat raw "quantity"), (safeFloat raw "cumQuantity");
    destruct (safeValue raw "tradesReport") as [report|]; simpl.
  all: try (intros [= <-]; simpl; repeat split; try reflexivity;
            try (destruct (m_symbol m); reflexivity);
            destruct market; reflexivity).
  all: match goal with
       | |- context [parseOrder_fills ?a ?b ?c ?d ?e ?f] =>
           destruct (parseOrder_fills a b c d e f) as [[[[[ts fee] av] co] pr]|] eqn:E;
           simpl; [|discriminate]
       end.
  all: intros [= <-]; simpl; repeat split; try reflexivity;
    try (destruct (m_symbol m); reflexivity);
    try (destruct market; reflexivity);
    exists ts; split; reflexivity.
Qed.

(** [parseOrder] returns as soon as the block over the fills does. *)
Lemma parseOrder_returns (this : exchange) (raw : value) (market : option market) :
  (forall report, safeValue raw "tradesReport" = Some report ->
     exists r, parseOrder_fills this report (order_market this raw market)
                 (safeFloat raw "cumQuantity") (safeString raw "type" None)
                 (known_price this raw) = Returned r) ->
  exists o, parseOrder this raw market = Returned o.
Proof.
  unfold parseOrder, order_market, known_price. intros H.
  destruct (safeString raw "symbol" None) as [mid|];
    [destruct (market_by_id this mid) as [m|]|].
  all: destruct (safeFloat raw "quantity"), (safeFloat raw "cumQuantity");
    destruct (safeValue raw "tradesReport") as [report|]; simpl.
  all: try (eexists; reflexivity).
  all: destruct (H report eq_refl) as ([[[[ts fee] av] co] pr] & ->); simpl;
    eexists; reflexivity.
Qed.

(** *** The loop over the fills *)

Lemma parseTrades_readable (this : exchange) (report : value) (market : option market) :
  Forall (fun v => readable v = true) (object_values report) ->
  exists ts, parseTrades this report market = Returned ts
             /\ Forall2 parsed_from (object_values report) ts.
Proof.
  unfold parseTrades. induction 1 as [|raw raws Hraw _ (ts & Hts & IH)]; simpl.
  - exists []. split; [reflexivity|constructor].
  - destruct (parseTrade_readable this raw market Hraw) as (t & -> & _ & _ & Hc & Hf).
    simpl. rewrite Hts. simpl. exists (t :: ts). split; [reflexivity|].
    constructor; [split|]; assumption.
Qed.

(** The first unreadable entry makes [parseTrades] raise. *)
Lemma parseTrades_unreadable (this : exchange) (report : value) (market : option market) :
  Exists (fun v => readable v = false) (object_values report) ->
  exists e, parseTrades this report market = Thrown e /\ exn_class e = TypeError.
Proof.
  unfold parseTrades. induction (object_values report) as [|raw raws IH]; intros H.
  - inversion H.
  - simpl. destruct (readable raw) eqn:Hraw.
    + destruct (parseTrade_readable this raw market Hraw) as (t & -> & _). simpl.
      inversion H as [? ? Hbad|? ? Hbad]; subst; [congruence|].
      destruct (IH Hbad) as (e & -> & He). simpl. eauto.
    + destruct raw; try discriminate; simpl; eauto.
Qed.

Lemma sum_with_finite (total : number) (x : float) :
  is_finite x = true -> exists g, sum [total; Some x] = Some g.
Proof.
  intros Hx. unfold sum. simpl. rewrite Hx.
  destruct (isNumber total); simpl; eauto.
Qed.

Lemma fold_fills_step (raws : list value) (ts : list trade) :
  Forall2 parsed_from raws ts ->
  forall (f : float) (c : number),
    fold_left fills_step ts (Some f, c)
    = (sum_from (Some f) (fill_fees raws), sum_from c (fill_cost <$> raws))
    /\ is_Some (sum_from (Some f) (fill_fees raws)).
Proof.
  induction 1 as [|raw t raws ts [Hc Hf] _ IH]; intros f c.
  - split; [reflexivity|]. simpl. eauto.
  - simpl. unfold fill_fees. simpl. rewrite Hc, Hf.
    destruct (fill_fee raw) as [x|] eqn:Hx; simpl.
    + destruct (sum_with_finite (Some f) x (safeFloat_number_finite _ _ Hx)) as (g & ->).
      apply IH.
    + apply IH.
Qed.

(** The loop starts with an undefined fee total, which its first turn sets
    to zero. *)
Lemma fold_fills (raws : list value) (ts : list trade) :
  Forall2 parsed_from raws ts ->
  fold_left fills_step ts (None, Some 0%float)
  = (match raws with
     | [] => None
     | _ => sum_from (Some 0%float) (fill_fees raws)
     end,
     sum_from (Some 0%float) (fill_cost <$> raws)).
Proof.
  intros H. destruct H as [|raw t raws ts Hrt H]; [reflexivity|].
  change (fold_left fills_step (t :: ts) (None, Some 0%float))
    with (fold_left fills_step (t :: ts) (Some 0%float, Some 0%float)).
  apply (fold_fills_step (raw :: raws) (t :: ts)). now constructor.
Qed.

(** The block over the fills, on readable fills. *)
Lemma parseOrder_fills_readable (this : exchange) (report : value)
    (market : option market) (filled : number) (type : option string) (price : number) :
  Forall (fun v => readable v = true) (object_values report) ->
  let raws := object_values report in
  let cost := sum_from (Some 0%float) (fill_cost <$> raws) in
  let feeCost := match raws with
                 | [] => None
                 | _ => sum_from (Some 0%float) (fill_fees raws)
                 end in
  exists ts,
    parseOrder_fills this report market filled type price
    = do fee <- fills_fee feeCost market;
      Returned (ts, fee, fills_average cost filled, cost, fills_price type price cost filled).
Proof.
  intros Hread raws cost feeCost.
  destruct (parseTrades_readable this report market Hread) as (ts & Hts & Hrel).
  exists ts. apply parseOrder_fills_eq; [assumption|]. now apply fold_fills.
Qed.

Lemma fill_fees_total (raws : list value) :
  is_Some (sum_from (Some 0%float) (fill_fees raws)).
Proof.
  unfold fill_fees. generalize 0%float.
  induction raws as [|raw raws IH]; intros f; simpl; [eauto|].
  destruct (fill_fee raw) as [x|] eqn:Hx; simpl; [|apply IH].
  destruct (sum_with_finite (Some f) x (safeFloat_number_finite _ _ Hx)) as (g & ->).
  apply IH.
Qed.

(** *** The claims about [parseOrder] *)

(** C2 (as amended).  For every raw order that carries a non-empty list of
    readable fills (none of them [null] or undefined) and whose market is
    known (the member of the market table under the order's symbol id,
    listed or inherited from [Object.prototype], else the market given),
    [parseOrder] returns an order whose cost is the running [sum] of
    [price * quantity] over the fills, whose fee has for cost the running
    [sum] of the fees of the fills that have one and for currency that
    market's quote (undefined for an inherited member), and whose average,
    when the filled quantity is defined and above zero, is [cost / filled];
    if moreover the type is "market" and no price is known, the price is that
    average. *)
Theorem parseOrder_fills_totals (this : exchange) (raw : value)
    (given : option market) (m : market) (report : value) :
  safeValue raw "tradesReport" = Some report ->
  object_values report <> [] ->
  Forall (fun v => readable v = true) (object_values report) ->
  order_market this raw given = Some m ->
  exists o, parseOrder this raw given = Returned o
    /\ o_cost o = sum_from (Some 0%float) (fill_cost <$> object_values report)
    /\ o_fee o = Some {| fee_cost := sum_from (Some 0%float) (fill_fees (object_values report));
                         fee_currency := m_quote m |}
    /\ (forall f, safeFloat raw "cumQuantity" = Some f -> PrimFloat.ltb 0 f = true ->
          o_average o = Some (js_div (o_cost o) (Some f))
          /\ (safeString raw "type" None = Some "market" -> known_price this raw = None ->
                o_price o = o_average o)).
Proof.
  intros Hreport Hne Hread Hm.
  destruct (parseOrder_fills_readable this report (Some m)
              (safeFloat raw "cumQuantity") (safeString raw "type" None)
              (known_price this raw) Hread) as (ts & Hfills).
  cbv zeta in Hfills.
  destruct (fill_fees_total (object_values report)) as (g & Hg).
  assert (fills_fee match object_values report with
                    | [] => None
                    | _ => sum_from (Some 0%float) (fill_fees (object_values report))
                    end (Some m)
          = Returned (Some {| fee_cost := Some g; fee_currency := m_quote m |})) as Hfee.
  { destruct (object_values report); [congruence|]. rewrite Hg. reflexivity. }
  rewrite Hfee in Hfills. simpl in Hfills.
  destruct (parseOrder_returns this raw given) as (o & Ho).
  { intros report' Hr. rewrite Hreport in Hr. injection Hr as <-.
    rewrite Hm, Hfills. eauto. }
  exists o. split; [assumption|].
  destruct (parseOrder_returned this raw given o Ho) as (_ & _ & _ & Hblock).
  rewrite Hreport in Hblock. destruct Hblock as (ts' & Hblock & _).
  rewrite Hm, Hfills in Hblock. injection Hblock as _ Hf Ha Hc Hp.
  rewrite <- Hc, <- Hf, Hg. split; [reflexivity|]. split; [reflexivity|].
  intros f Hfilled Hpos. split.
  - rewrite <- Ha. unfold fills_average. now rewrite Hfilled, Hpos.
  - intros Ht Hk. rewrite <- Hp, <- Ha. unfold fills_price, fills_average.
    now rewrite Hfilled, Hpos, Ht, Hk.
Qed.

(** A price known before the fills are read is the price of the order. *)
Lemma parseOrder_fills_keeps_price (this : exchange) (report : value)
    (market : option market) (filled : number) (type : option string) (p : float)
    (ts : list trade) (fee : option fee) (average cost price : number) :
  parseOrder_fills this report market filled type (Some p)
  = Returned (ts, fee, average, cost, price) ->
  price = Some p.
Proof.
  unfold parseOrder_fills.
  destruct (parseTrades this report market) as [ts'|]; simpl; [|discriminate].
  destruct (fold_left fills_step ts' (None, Some 0%float)) as [feeCost tradesCost].
  destruct filled as [f|]; [destruct (PrimFloat.ltb 0 f)|].
  all: destruct feeCost; [destruct market|]; simpl; try discriminate.
  all: destruct (bool_decide (type = Some "market")); intros [= _ _ _ _ <-]; reflexivity.
Qed.

(** [parseOrder] returns when the fills are readable and, if there are any,
    the market is known. *)
Lemma parseOrder_total (this : exchange) (raw : value) (given : option market) :
  Forall (fun v => readable v = true) (fills_of raw) ->
  fills_of raw = [] \/ is_Some (order_market this raw given) ->
  exists o, parseOrder this raw given = Returned o.
Proof.
  unfold fills_of. intros Hread Hmarket. apply parseOrder_returns.
  intros report Hreport. rewrite Hreport in Hread, Hmarket.
  destruct (parseOrder_fills_readable this report (order_market this raw given)
              (safeFloat raw "cumQuantity") (safeString raw "type" None)
              (known_price this raw) Hread) as (ts & ->).
  destruct Hmarket as [-> | (m & ->)]; simpl; [eauto|].
  destruct (object_values report); simpl; [eauto|].
  destruct (fill_fees_total (v :: l)) as (g & ->). simpl. eauto.
Qed.

(** [parseOrder] raises what the block over the fills raises. *)
Lemma parseOrder_raises (this : exchange) (raw : value) (given : option market)
    (report : value) (e : exception) :
  safeValue raw "tradesReport" = Some report ->
  parseOrder_fills this report (order_market this raw given)
    (safeFloat raw "cumQuantity") (safeString raw "type" None) (known_price this raw)
  = Thrown e ->
  parseOrder this raw given = Thrown e.
Proof.
  unfold parseOrder, order_market, known_price. intros -> Hfills.
  destruct (safeString raw "symbol" None) as [mid|];
    [destruct (market_by_id this mid) as [m|]|].
  all: destruct (safeFloat raw "quantity"), (safeFloat raw "cumQuantity"); simpl.
  all: rewrite Hfills; reflexivity.
Qed.

(** X15.  With a non-empty list of readable fills and no market known (the
    order's symbol id names no member of the market table, own or inherited,
    and no market is given), the fee cannot read the market's quote:
    [parseOrder] raises a [TypeError]. *)
Lemma parseOrder_unknown_market (this : exchange) (raw : value)
    (given : option market) (report : value) :
  safeValue raw "tradesReport" = Some report ->
  object_values report <> [] ->
  Forall (fun v => readable v = true) (object_values report) ->
  order_market this raw given = None ->
  exists e, parseOrder this raw given = Thrown e /\ exn_class e = TypeError.
Proof.
  intros Hreport Hne Hread Hmarket.
  exists (Exception TypeError
            (engineMessage "Cannot read property 'quote' of undefined")).
  split; [|reflexivity].
  apply (parseOrder_raises this raw given report); [exact Hreport|].
  destruct (parseOrder_fills_readable this report (order_market this raw given)
              (safeFloat raw "cumQuantity") (safeString raw "type" None)
              (known_price this raw) Hread) as (ts & ->).
  rewrite Hmarket.
  destruct (object_values report) as [|fill fills] eqn:Hfills; [contradiction|].
  destruct (fill_fees_total (fill :: fills)) as (g & ->). reflexivity.
Qed.

(** C3 (as amended).  For every raw order with no price of its own whose
    client order id is a key of the order cache, if the cached order has a
    price then every order [parseOrder] returns has that price; and it does
    return one when the fills are readable and, if there are any, the market
    is known. *)
Theorem parseOrder_cached_price (this : exchange) (raw : value)
    (given : option market) (cached : order) (p : float) :
  safeFloat raw "price" = None ->
  orders this !! property_key (safeString raw "clientOrderId" None) = Some cached ->
  o_price cached = Some p ->
  (forall o, parseOrder this raw given = Returned o -> o_price o = Some p)
  /\ (Forall (fun v => readable v = true) (fills_of raw) ->
      fills_of raw = [] \/ is_Some (order_market this raw given) ->
      exists o, parseOrder this raw given = Returned o /\ o_price o = Some p).
Proof.
  intros Hprice Hcached Hp.
  assert (known_price this raw = Some p) as Hknown
    by (unfold known_price; now rewrite Hprice, Hcached).
  assert (forall o, parseOrder this raw given = Returned o -> o_price o = Some p) as Hall.
  { intros o Ho. destruct (parseOrder_returned this raw given o Ho) as (_ & _ & _ & Hblock).
    destruct (safeValue raw "tradesReport") as [report|].
    - destruct Hblock as (ts & Hblock & _). rewrite Hknown in Hblock.
      apply (parseOrder_fills_keeps_price _ _ _ _ _ _ _ _ _ _ _ Hblock).
    - destruct Hblock as (-> & _). exact Hknown. }
  split; [exact Hall|].
  intros Hread Hmarket.
  destruct (parseOrder_total this raw given Hread Hmarket) as (o & Ho).
  exists o. split; [exact Ho|]. now apply Hall.
Qed.

(** C10.  For every raw order with no symbol field, [parseOrder] called with
    a market returns (its fills being readable) an order whose symbol is the
    market's exchange-native id; [parseTrade], on a raw trade with no symbol
    field and the same market, returns a trade whose symbol is the market's
    unified symbol. *)
Theorem parseOrder_symbol_is_market_id (this : exchange) (raw fill : value) (m : market) :
  safeString raw "symbol" None = None ->
  Forall (fun v => readable v = true) (fills_of raw) ->
  safeString fill "symbol" None = None ->
  readable fill = true ->
  (exists o, parseOrder this raw (Some m) = Returned o /\ o_symbol o = m_id m)
  /\ (exists t, parseTrade this fill (Some m) = Returned t /\ t_symbol t = m_symbol m).
Proof.
  intros Hsymbol Hread Hfill Hreadable. split.
  - destruct (parseOrder_total this raw (Some m) Hread) as (o & Ho).
    { right. unfold order_market. rewrite Hsymbol. eauto. }
    exists o. split; [exact Ho|].
    destruct (parseOrder_returned this raw (Some m) o Ho) as (-> & _).
    unfold order_symbol. now rewrite Hsymbol.
  - unfold parseTrade.
    assert (index fill "timestamp" = Returned (prop fill "timestamp")) as ->
      by (destruct fill; try discriminate; reflexivity).
    simpl. rewrite Hfill. eexists. split; reflexivity.
Qed.

End Orders.

(** ** handleErrors *)

Section Errors.
Context {host : Host}.

(** C1 (as amended).  For every failed call whose decoded body is defined:
    with HTTP status 504 (or 503), whatever the body, [handleErrors] raises
    [ExchangeNotAvailable], which is neither [RequestTimeout] nor the generic
    [ExchangeError]; with HTTP status 429 it raises nothing and leaves the
    failure to the default handler; and the [RequestTimeout] of the
    exceptions table is raised for a body whose error code is 504 under any
    other status from 400 up. *)
Theorem handleErrors_gateway_timeout (body : string) (response : value) :
  (forall code, code = 503%Z \/ code = 504%Z ->
     handleErrors code body (Some response)
     = Thrown (Exception ExchangeNotAvailable (this_id +:+ " " +:+ body)))
  /\ handleErrors 429 body (Some response) = Returned tt
  /\ (forall code error,
        (400 <= code)%Z -> code <> 503%Z -> code <> 504%Z -> code <> 429%Z ->
        starts_with_brace body = true ->
        prop response "error" = Some error ->
        safeString error "code" None = Some "504" ->
        handleErrors code body (Some response)
        = Thrown (Exception RequestTimeout (this_id +:+ " " +:+ body))).
Proof.
  split; [|split].
  - intros code [-> | ->]; reflexivity.
  - reflexivity.
  - intros code error Hfailed H503 H504 H429 Hbrace Herror Hcode.
    unfold handleErrors.
    rewrite (proj2 (Z.leb_le 400 code) Hfailed).
    rewrite (proj2 (Z.eqb_neq code 503) H503), (proj2 (Z.eqb_neq code 504) H504),
      (proj2 (Z.eqb_neq code 429) H429), Hbrace.
    simpl. destruct response as [| | | | | |fields]; try discriminate.
    simpl in Herror. simpl.
    destruct (assoc "error" fields) as [e|] eqn:He; [|discriminate].
    rewrite bool_decide_eq_true_2 by eauto. simpl.
    simpl in Herror. rewrite Herror. simpl. rewrite Hcode. reflexivity.
Qed.

End Errors.

(** ** sign *)

Section Signing.
Context {host : Host}.

Lemma present_Some (credential : option string) (s : string) :
  credential = Some s -> s <> EmptyString -> present credential = true.
Proof.
  intros -> Hs. simpl. destruct (String.eqb_spec s EmptyString); [contradiction|reflexivity].
Qed.

(** A private call without the API key or the secret. *)
Lemma sign_without_credentials (this : exchange) (path method : string)
    (params : gmap string value)
    (headers : option (list (string * string))) (body : option string) :
  present (apiKey this) = false \/ present (secret this) = false ->
  exists message,
    sign this path "private" method params headers body
    = Thrown (Exception AuthenticationError message).
Proof.
  intros Habsent. unfold sign, checkRequiredCredentials. simpl.
  destruct (present (apiKey this)); simpl; [|eauto].
  destruct Habsent as [|Hsecret]; [discriminate|].
  rewrite Hsecret. simpl. eauto.
Qed.

(** A private call with both. *)
Lemma sign_with_credentials (this : exchange) (path method : string)
    (params : gmap string value)
    (headers : option (list (string * string))) (body : option string)
    (key sec : string) :
  let query := omit params (extractParams path) in
  let endpoint := "https://api.hitbtc.com/api/2/" +:+ implodeParams path params in
  apiKey this = Some key -> secret this = Some sec ->
  key <> EmptyString -> sec <> EmptyString ->
  exists r,
    sign this path "private" method params headers body = Returned r
    /\ r_method r = method
    /\ r_headers r
       = Some [ ("Authorization", "Basic " +:+ stringToBase64 (key +:+ ":" +:+ sec));
                ("Content-Type", "application/json") ]
    /\ (method = "GET" ->
          r_body r = body
          /\ r_url r = if decide (query = ∅) then endpoint
                       else endpoint +:+ "?" +:+ urlencode query)
    /\ (method <> "GET" ->
          r_url r = endpoint
          /\ r_body r = if decide (query = ∅) then body
                        else Some (json query)).
Proof.
  intros query endpoint Hkey Hsec Hk Hs. subst query endpoint.
  unfold sign, checkRequiredCredentials. cbv zeta.
  rewrite (present_Some _ _ Hkey Hk), (present_Some _ _ Hsec Hs), Hkey, Hsec.
  destruct (decide (omit params (extractParams path) = ∅)) as [Hq|Hq];
    [rewrite (bool_decide_eq_true_2 _ Hq)|rewrite (bool_decide_eq_false_2 _ Hq)].
  all: destruct (String.eqb_spec method "GET") as [->|Hmethod]; simpl.
  all: eexists; split; [reflexivity|]; simpl.
  all: repeat split; try reflexivity; congruence.
Qed.

(** C8.  For every private call, [sign] raises an [AuthenticationError] when
    the API key or the secret is absent; otherwise it returns a request with
    the given method and the header [Authorization: Basic] followed by the
    base64 of [apiKey:secret].  With [query] the parameters the path does not
    name: for GET the URL ends in [?] and the encoded query (when there is
    one) and the body is the one passed in; for any other method the URL
    carries no query and the body is the JSON of the query (when there is
    one, else the one passed in). *)
Theorem sign_private (this : exchange) (path method : string)
    (params : gmap string value)
    (headers : option (list (string * string))) (body : option string) :
  let query := omit params (extractParams path) in
  let endpoint := "https://api.hitbtc.com/api/2/" +:+ implodeParams path params in
  (present (apiKey this) = false \/ present (secret this) = false ->
     exists message,
       sign this path "private" method params headers body
       = Thrown (Exception AuthenticationError message))
  /\ (forall key sec,
        apiKey this = Some key -> secret this = Some sec ->
        key <> EmptyString -> sec <> EmptyString ->
        exists r,
          sign this path "private" method params headers body = Returned r
          /\ r_method r = method
          /\ r_headers r
             = Some [ ("Authorization", "Basic " +:+ stringToBase64 (key +:+ ":" +:+ sec));
                      ("Content-Type", "application/json") ]
          /\ (method = "GET" ->
                r_body r = body
                /\ r_url r = if decide (query = ∅) then endpoint
                             else endpoint +:+ "?" +:+ urlencode query)
          /\ (method <> "GET" ->
                r_url r = endpoint
                /\ r_body r = if decide (query = ∅) then body
                              else Some (json query))).
Proof.
  intros query endpoint. split.
  - apply sign_without_credentials.
  - intros key sec. apply sign_with_credentials.
Qed.

End Signing.

(** ** withdraw *)

Section Withdraw.
Context {host : Host}.

Lemma extractParams_withdraw : extractParams "account/crypto/withdraw" = [].
Proof. reflexivity. Qed.

(** [withdraw] signs its request and hands it to the transport. *)
Lemma withdraw_sends (this : exchange) (code : string) (amount : value)
    (address : option string) (tag : value) (params : gmap string value) :
  withdraw this code amount address tag params =
  do signed <- withdraw_signed this code amount address tag params;
  do response <- fetch signed;
  do response_id <- index response "id";
  Returned {| w_info := response; w_id := response_id |}.
Proof.
  unfold withdraw, withdraw_signed, privatePostAccountCryptoWithdraw, call.
  destruct (checkAddress address); [|reflexivity]. simpl.
  destruct (currency_of this code); [|reflexivity]. simpl.
  destruct (sign _ _ _ _ _ _ _); reflexivity.
Qed.

Lemma withdraw_request_address (c : currency) (amount : value)
    (address : option string) (tag : value) :
  withdraw_request c amount address tag !! "address" = Some (of_string address).
Proof.
  unfold withdraw_request. destruct (truthy tag); reflexivity.
Qed.

Lemma withdraw_request_paymentId (c : currency) (amount : value)
    (address : option string) (tag : value) :
  withdraw_request c amount address tag !! "paymentId"
  = if truthy tag then Some tag else None.
Proof.
  unfold withdraw_request. destruct (truthy tag); reflexivity.
Qed.

(** C9 (as amended).  For every withdrawal whose extra parameters do not
    themselves set "paymentId" (none do by default), with a valid address, a
    known currency and credentials, [withdraw] signs a request whose body is
    the JSON of an object that binds "paymentId" to the tag when the tag is
    truthy (a non-empty string), and that has no "paymentId" member when the
    tag is empty or absent. *)
Theorem withdraw_paymentId (this : exchange) (code : string) (amount : value)
    (a : string) (tag : value) (params : gmap string value)
    (c : currency) (key sec : string) :
  validAddress a = true ->
  currencies this !! code = Some c ->
  apiKey this = Some key -> secret this = Some sec ->
  key <> EmptyString -> sec <> EmptyString ->
  params !! "paymentId" = None ->
  exists r query,
    withdraw_signed this code amount (Some a) tag params = Returned r
    /\ r_body r = Some (json query)
    /\ (truthy tag = true -> query !! "paymentId" = Some tag)
    /\ (truthy tag = false -> query !! "paymentId" = None)
    /\ (forall s, tag = JStr s -> s <> EmptyString -> query !! "paymentId" = Some (JStr s))
    /\ (tag = JStr EmptyString \/ tag = JUndefined \/ tag = JNull ->
          query !! "paymentId" = None).
Proof.
  intros Hvalid Hc Hkey Hsec Hk Hs Hparams.
  set (query := extend (withdraw_request c amount (Some a) tag) params).
  assert (query !! "paymentId" = if truthy tag then Some tag else None) as Hquery.
  { unfold query, extend. rewrite lookup_union_r by exact Hparams.
    apply withdraw_request_paymentId. }
  assert (query <> ∅) as Hne.
  { intros Hempty.
    assert (query !! "address" = None) as Hnone by (rewrite Hempty; apply lookup_empty).
    unfold query, extend in Hnone. apply lookup_union_None in Hnone.
    destruct Hnone as [_ Hnone]. rewrite withdraw_request_address in Hnone. discriminate. }
  destruct (sign_with_credentials this "account/crypto/withdraw" "POST" query None None
              key sec Hkey Hsec Hk Hs) as (r & Hr & _ & _ & _ & Hpost).
  destruct (Hpost ltac:(discriminate)) as [_ Hbody].
  rewrite extractParams_withdraw in Hbody. simpl in Hbody.
  destruct (decide (query = ∅)); [contradiction|].
  exists r, query. split.
  - unfold withdraw_signed, checkAddress, currency_of. rewrite Hvalid, Hc. exact Hr.
  - split; [exact Hbody|]. rewrite Hquery. repeat split.
    + now intros ->.
    + now intros ->.
    + intros s -> Hne'. simpl. now destruct (String.eqb_spec s EmptyString).
    + intros [-> | [-> | ->]]; reflexivity.
Qed.

End Withdraw.

(** ** createOrder *)

Section CreateOrder.
Context {host : Host}.


End CreateOrder.

(** *** The claims about [parseOrder] on the worked examples *)

Lemma parseOrder_fills_totals_witness :
  (exists o,
     @parseOrder Reference.host Examples.session
       (Examples.filled_order "fe36aa5e190149bf9985fb673bbb2ea0" "ETHBTC") None
     = Returned o
     /\ o_cost o = Some 202%float
     /\ fee_cost <$> o_fee o = Some (Some 0.30000000000000004%float)
     /\ fee_currency <$> o_fee o = Some (Some "BTC")
     /\ o_average o = Some 101%float
     /\ o_price o = Some 101%float)
  /\ (exists o,
        @parseOrder Reference.host Examples.session
          (Examples.filled_order "fe36aa5e190149bf9985fb673bbb2ea0" "constructor")
          (Some Examples.eth_btc)
        = Returned o
        /\ o_cost o = Some 202%float
        /\ o_fee o = Some {| fee_cost := Some 0.30000000000000004%float;
                             fee_currency := None |}).
Proof.
  split.
  - destruct (@parseOrder_fills_totals Reference.host Examples.session
                (Examples.filled_order "fe36aa5e190149bf9985fb673bbb2ea0" "ETHBTC")
                None Examples.eth_btc Examples.two_fills)
      as (o & Ho & Hcost & Hfee & Hrest).
    + reflexivity.
    + discriminate.
    + repeat constructor.
    + reflexivity.
    + destruct (Hrest 2%float eq_refl eq_refl) as [Haverage Hprice].
      exists o. split; [exact Ho|].
      rewrite (Hprice eq_refl eq_refl), Haverage, Hcost, Hfee.
      repeat split; reflexivity.
  - destruct (@parseOrder_fills_totals Reference.host Examples.session
                (Examples.filled_order "fe36aa5e190149bf9985fb673bbb2ea0" "constructor")
                (Some Examples.eth_btc) inherited_market Examples.two_fills)
      as (o & Ho & Hcost & Hfee & _).
    + reflexivity.
    + discriminate.
    + repeat constructor.
    + reflexivity.
    + exists o. split; [exact Ho|]. rewrite Hcost, Hfee. split; reflexivity.
Defined.

(** C2, the claim as stated, fails on its own example: the fees 0.1 and 0.2
    add up in binary64 to 0.30000000000000004, which [===] tells from 0.3.
    It fails too where [parseOrder] raises instead: on the same order under
    a symbol id the market table has no member under, parsed with no market
    given (the fee would read the market's quote), and on an order one of
    whose fills is [null]. *)
Lemma parseOrder_fee_cost_is_rounded :
  o_fee <$> @parseOrder Reference.host Examples.session
      (Examples.filled_order "fe36aa5e190149bf9985fb673bbb2ea0" "ETHBTC") None
  = Returned (Some {| fee_cost := Some 0.30000000000000004%float;
                      fee_currency := Some "BTC" |})
  /\ PrimFloat.eqb 0.30000000000000004%float 0.3%float = false
  /\ (exists e,
        @parseOrder Reference.host Examples.session
          (Examples.filled_order "fe36aa5e190149bf9985fb673bbb2ea0" "XRPUSDT") None
        = Thrown e
        /\ exn_class e = TypeError)
  /\ (exists e,
        @parseOrder Reference.host Examples.session
          (Further.with_fills "ETHBTC" [Examples.bare_fill; JNull]) None
        = Thrown e
        /\ exn_class e = TypeError).
Proof.
  split; [reflexivity|]. split; [reflexivity|].
  split; eexists; split; reflexivity.
Qed.

Lemma parseOrder_cached_price_witness :
  exists o,
    @parseOrder Reference.host Examples.session
      (Examples.bare_order "27b9bfc068b44194b1f453c7af511ed6") None = Returned o
    /\ o_price o = Some 50%float.
Proof.
  apply (@parseOrder_cached_price Reference.host Examples.session
           (Examples.bare_order "27b9bfc068b44194b1f453c7af511ed6") None
           (Examples.cached "27b9bfc068b44194b1f453c7af511ed6" (Some 50%float)) 50%float).
  - reflexivity.
  - reflexivity.
  - reflexivity.
  - constructor.
  - left. reflexivity.
Defined.

(** C3, the claim as stated, fails when the cached order has no price: a
    market order cached before its fills has none, and when the exchange
    later reports it filled, the parsed price is the average of the fills,
    not the cached order's (unset) price. *)
Lemma parseOrder_cached_price_unset :
  orders Examples.session !! "f8dbaab336d44d5ba3ff578098a68454"
  = Some (Examples.cached "f8dbaab336d44d5ba3ff578098a68454" None)
  /\ o_price (Examples.cached "f8dbaab336d44d5ba3ff578098a68454" None) = None
  /\ prop (Examples.filled_order "f8dbaab336d44d5ba3ff578098a68454" "ETHBTC") "price" = None
  /\ o_price <$> @parseOrder Reference.host Examples.session
       (Examples.filled_order "f8dbaab336d44d5ba3ff578098a68454" "ETHBTC") None
     = Returned (Some 101%float).
Proof. repeat split; reflexivity. Qed.

Lemma parseOrder_symbol_is_market_id_witness :
  (exists o, @parseOrder Reference.host Examples.session
               (Examples.bare_order "fe36aa5e190149bf9985fb673bbb2ea0")
               (Some Examples.eth_btc) = Returned o
             /\ o_symbol o = Some "ETHBTC")
  /\ (exists t, @parseTrade Reference.host Examples.session Examples.bare_fill
                  (Some Examples.eth_btc) = Returned t
                /\ t_symbol t = Some "ETH/BTC").
Proof.
  apply (@parseOrder_symbol_is_market_id Reference.host Examples.session
           (Examples.bare_order "fe36aa5e190149bf9985fb673bbb2ea0")
           Examples.bare_fill Examples.eth_btc).
  - reflexivity.
  - constructor.
  - reflexivity.
  - reflexivity.
Defined.

(** *** The other claims on the worked examples *)

Lemma handleErrors_gateway_timeout_witness :
  @handleErrors Reference.host 503 Examples.gateway_timeout_body
    (Some Examples.gateway_timeout)
  = Thrown (Exception ExchangeNotAvailable ("hitbtc " +:+ Examples.gateway_timeout_body))
  /\ @handleErrors Reference.host 429 Examples.gateway_timeout_body
       (Some Examples.gateway_timeout)
     = Returned tt
  /\ @handleErrors Reference.host 400 Examples.gateway_timeout_body
       (Some Examples.gateway_timeout)
     = Thrown (Exception RequestTimeout ("hitbtc " +:+ Examples.gateway_timeout_body)).
Proof.
  destruct (@handleErrors_gateway_timeout Reference.host
              Examples.gateway_timeout_body Examples.gateway_timeout)
    as (Hunavailable & Hlimit & Htable).
  split; [|split].
  - apply Hunavailable. left. reflexivity.
  - exact Hlimit.
  - apply (Htable 400%Z (JObj [("code", JNum 504); ("message", JStr "Gateway Timeout")]));
      try reflexivity; discriminate.
Defined.

(** C1, the claim as stated, fails on its own example: under HTTP status
    504 the gateway's timeout body raises [ExchangeNotAvailable], not
    [RequestTimeout]. *)
Lemma handleErrors_504_is_unavailable :
  @handleErrors Reference.host 504 Examples.gateway_timeout_body
    (Some Examples.gateway_timeout)
  = Thrown (Exception ExchangeNotAvailable ("hitbtc " +:+ Examples.gateway_timeout_body))
  /\ bool_decide (ExchangeNotAvailable = RequestTimeout) = false.
Proof. split; reflexivity. Qed.

Lemma sign_private_witness :
  (exists message,
     @sign Reference.host Examples.anonymous "order/{clientOrderId}" "private" "GET"
       {[ "clientOrderId" := JStr "fe36aa5e190149bf9985fb673bbb2ea0" ]} None None
     = Thrown (Exception AuthenticationError message))
  /\ (exists r,
        @sign Reference.host Examples.session "history/order" "private" "GET"
          {[ "clientOrderId" := JStr "fe36aa5e190149bf9985fb673bbb2ea0" ]} None None
        = Returned r
        /\ r_headers r = Some [ ("Authorization", "Basic a2V5OnNlY3JldA==");
                                ("Content-Type", "application/json") ]
        /\ r_body r = None
        /\ r_url r = "https://api.hitbtc.com/api/2/history/order?clientOrderId=fe36aa5e190149bf9985fb673bbb2ea0")
  /\ (exists r,
        @sign Reference.host Examples.session "order/{clientOrderId}" "private" "PATCH"
          {[ "clientOrderId" := JStr "fe36aa5e190149bf9985fb673bbb2ea0";
             "quantity" := JStr "2" ]} None None
        = Returned r
        /\ r_url r = "https://api.hitbtc.com/api/2/order/fe36aa5e190149bf9985fb673bbb2ea0"
        /\ r_body r = Some (Reference.stringify (JObj [("quantity", JStr "2")]))).
Proof.
  split; [|split].
  - apply (@sign_private Reference.host Examples.anonymous). left. reflexivity.
  - destruct (@sign_private Reference.host Examples.session "history/order" "GET"
                {[ "clientOrderId" := JStr "fe36aa5e190149bf9985fb673bbb2ea0" ]} None None)
      as [_ Hsigned].
    destruct (Hsigned "key" "secret" eq_refl eq_refl ltac:(discriminate) ltac:(discriminate))
      as (r & Hr & _ & Hheaders & Hget & _).
    destruct (Hget eq_refl) as [Hbody Hurl].
    exists r. repeat split; assumption.
  - destruct (@sign_private Reference.host Examples.session "order/{clientOrderId}" "PATCH"
                {[ "clientOrderId" := JStr "fe36aa5e190149bf9985fb673bbb2ea0";
                   "quantity" := JStr "2" ]} None None)
      as [_ Hsigned].
    destruct (Hsigned "key" "secret" eq_refl eq_refl ltac:(discriminate) ltac:(discriminate))
      as (r & Hr & _ & _ & _ & Hother).
    destruct (Hother ltac:(discriminate)) as [Hurl Hbody].
    exists r. repeat split; assumption.
Defined.

Lemma withdraw_paymentId_witness :
  (exists r query,
     @withdraw_signed Reference.host Examples.session "ETH" (JStr "1")
       (Some Examples.address) (JStr "7878") ∅ = Returned r
     /\ r_body r = Some (Reference.stringify_map query)
     /\ query !! "paymentId" = Some (JStr "7878"))
  /\ (exists r query,
        @withdraw_signed Reference.host Examples.session "ETH" (JStr "1")
          (Some Examples.address) (JStr EmptyString) ∅ = Returned r
        /\ r_body r = Some (Reference.stringify_map query)
        /\ query !! "paymentId" = None).
Proof.
  split.
  - destruct (@withdraw_paymentId Reference.host Examples.session "ETH" (JStr "1")
                Examples.address (JStr "7878") ∅
                {| c_id := Some "ETH"; c_code := Some "ETH" |} "key" "secret"
                eq_refl eq_refl eq_refl eq_refl
                ltac:(discriminate) ltac:(discriminate) eq_refl)
      as (r & query & Hr & Hbody & Htag & _).
    exists r, query. split; [exact Hr|]. split; [exact Hbody|].
    apply Htag. reflexivity.
  - destruct (@withdraw_paymentId Reference.host Examples.session "ETH" (JStr "1")
                Examples.address (JStr EmptyString) ∅
                {| c_id := Some "ETH"; c_code := Some "ETH" |} "key" "secret"
                eq_refl eq_refl eq_refl eq_refl
                ltac:(discriminate) ltac:(discriminate) eq_refl)
      as (r & query & Hr & Hbody & _ & Hnone & _).
    exists r, query. split; [exact Hr|]. split; [exact Hbody|].
    apply Hnone. reflexivity.
Defined.

(** C9, the claim as stated, fails when the extra parameters set
    "paymentId" themselves: with no tag the signed body still carries the
    member, and with a tag it carries the parameter's value, not the tag. *)
Lemma withdraw_params_override_paymentId :
  r_body <$> @withdraw_signed Reference.host Examples.session "ETH" (JStr "1")
    (Some Examples.address) JUndefined {[ "paymentId" := JStr "1234" ]}
  = Returned (Some (Reference.stringify
       (JObj [ ("currency", JStr "ETH"); ("amount", JNum 1);
               ("address", JStr Examples.address); ("paymentId", JStr "1234") ])))
  /\ r_body <$> @withdraw_signed Reference.host Examples.session "ETH" (JStr "1")
       (Some Examples.address) (JStr "7878") {[ "paymentId" := JStr "1234" ]}
     = Returned (Some (Reference.stringify
          (JObj [ ("currency", JStr "ETH"); ("amount", JNum 1);
                  ("address", JStr Examples.address); ("paymentId", JStr "1234") ]))).
Proof. split; reflexivity. Qed.


(** * Further properties of the adapter *)

(** ** handleErrors, beyond the gateway timeout *)

Section MoreErrors.
Context {host : Host}.

(** No entry of the exceptions table is a [TypeError]. *)
Lemma exceptions_classes (k : string) (class : error_class) :
  assoc k exceptions = Some class -> class <> TypeError.
Proof.
  unfold exceptions. cbn [assoc].
  repeat match goal with
         | |- context [String.eqb k ?c] => destruct (String.eqb k c)
         end;
    intros [= <-]; discriminate.
Qed.

(** A failed call raises either an exception of the adapter, with the
    feedback as message, or the engine's [TypeError] for searching what is
    not an object; the latter exactly when the body starts with a brace, the
    status is neither 503 nor 504 and the decoded body is not an object. *)
Lemma handleErrors_failed (code : Z) (body : string) (response : value) :
  (400 <= code)%Z -> code <> 429%Z ->
  (exists class,
     handleErrors code body (Some response)
     = Thrown (Exception class (this_id +:+ " " +:+ body))
     /\ class <> TypeError
     /\ ~ (starts_with_brace body = true /\ code <> 503%Z /\ code <> 504%Z
           /\ match response with
              | JObj _ | JArr _ => False
              | _ => True
              end))
  \/ (exists message,
        handleErrors code body (Some response) = Thrown (Exception TypeError message)
        /\ starts_with_brace body = true /\ code <> 503%Z /\ code <> 504%Z
        /\ match response with
           | JObj _ | JArr _ => False
           | _ => True
           end).
Proof.
  intros Hfailed H429. unfold handleErrors.
  rewrite (proj2 (Z.leb_le 400 code) Hfailed), (proj2 (Z.eqb_neq code 429) H429).
  destruct (Z.eqb_spec code 503) as [H503|H503];
    [left; eexists; cbn [orb]; split; [reflexivity|]; split; [discriminate|tauto]|].
  destruct (Z.eqb_spec code 504) as [H504|H504];
    [left; eexists; cbn [orb]; split; [reflexivity|]; split; [discriminate|tauto]|].
  cbn [orb].
  destruct (starts_with_brace body);
    [|left; eexists; split; [reflexivity|]; split; [discriminate|];
      intros [Hbrace _]; discriminate Hbrace].
  destruct response as [| | | | |items|fields].
  1-5: right; eexists; repeat split; try reflexivity; assumption.
  - left. eexists. split; [reflexivity|]. split; [discriminate|tauto].
  - left. cbn [js_in obind]. destruct (bool_decide _).
    + unfold throwExactlyMatchedException.
      destruct (assoc _ exceptions) as [class|] eqn:Hclass; cbn [obind throw].
      * eexists. split; [reflexivity|]. split; [|tauto].
        exact (exceptions_classes _ _ Hclass).
      * destruct (bool_decide _); eexists;
          (split; [reflexivity|]; split; [discriminate|tauto]).
    + eexists. split; [reflexivity|]. split; [discriminate|tauto].
Qed.

(** X1.  For every failed call (status 400 or more) other than a rate limit
    (429) whose body was decoded, [handleErrors] raises: it never returns and
    so never leaves such a failure unreported.  What it raises is a
    [TypeError] exactly when the body starts with a brace, the status is
    neither 503 nor 504 and the decoded body is not an object (the operator
    [in] refuses it); in every other case the exception's message is the
    exchange id, a space and the raw body. *)
Theorem handleErrors_always_raises (code : Z) (body : string) (response : value) :
  (400 <= code)%Z -> code <> 429%Z ->
  exists e,
    handleErrors code body (Some response) = Thrown e
    /\ (exn_class e = TypeError <->
          starts_with_brace body = true /\ code <> 503%Z /\ code <> 504%Z
          /\ match response with
             | JObj _ | JArr _ => False
             | _ => True
             end)
    /\ (exn_class e <> TypeError -> exn_message e = "hitbtc " +:+ body).
Proof.
  intros Hfailed H429.
  destruct (handleErrors_failed code body response Hfailed H429)
    as [(class & -> & Hclass & Hobject) | (message & -> & Hprimitive)];
    eexists; (split; [reflexivity|]); cbn [exn_class exn_message]; split.
  - split; [intros H; contradiction|intros H; contradiction].
  - reflexivity.
  - split; [intros _; exact Hprimitive|reflexivity].
  - intros H. now contradiction H.
Qed.

(** X2.  [handleErrors] raises nothing when the body could not be decoded
    or when the status is below 400, whatever the body says. *)
Theorem handleErrors_quiet (code : Z) (body : string) (response : option value) :
  response = None \/ (code < 400)%Z ->
  handleErrors code body response = Returned tt.
Proof.
  intros [-> | Hcode]; [reflexivity|].
  unfold handleErrors. destruct response; [|reflexivity].
  now rewrite (proj2 (Z.leb_gt 400 code) Hcode).
Qed.

(** X3.  Under a failed status other than 503, 504 and 429, a JSON body
    whose error code is listed in the exceptions table raises the listed
    exception, with the feedback as message, whatever its message says (the
    table is read before the message). *)
Theorem handleErrors_exact_code (code : Z) (body : string) (response error : value)
    (errorCode : string) (class : error_class) :
  (400 <= code)%Z -> code <> 503%Z -> code <> 504%Z -> code <> 429%Z ->
  starts_with_brace body = true ->
  prop response "error" = Some error ->
  safeString error "code" None = Some errorCode ->
  assoc errorCode exceptions = Some class ->
  handleErrors code body (Some response)
  = Thrown (Exception class (this_id +:+ " " +:+ body)).
Proof.
  intros Hfailed H503 H504 H429 Hbrace Herror Hcode Hclass.
  unfold handleErrors.
  rewrite (proj2 (Z.leb_le 400 code) Hfailed).
  rewrite (proj2 (Z.eqb_neq code 503) H503), (proj2 (Z.eqb_neq code 504) H504),
    (proj2 (Z.eqb_neq code 429) H429), Hbrace.
  cbn [orb]. destruct response as [| | | | | |fields]; try discriminate.
  cbn [js_in obind]. cbn [prop] in Herror.
  destruct (assoc "error" fields) as [e|] eqn:He; [|discriminate].
  rewrite bool_decide_eq_true_2 by eauto.
  cbn [prop]. rewrite He, Herror.
  change (default JUndefined (Some error)) with error. rewrite Hcode.
  unfold throwExactlyMatchedException. cbn [property_key]. rewrite Hclass.
  reflexivity.
Qed.

(** X4.  Under a failed status other than 503, 504 and 429, a JSON body
    whose error code is not listed raises [InvalidOrder] when its message is
    "Duplicate clientOrderId", and the generic [ExchangeError] for any other
    message; a body that does not start with a brace raises the generic
    [ExchangeError] whatever was decoded.  Both carry the feedback. *)
Theorem handleErrors_unlisted_code (code : Z) (body : string) (response : value) :
  (400 <= code)%Z -> code <> 503%Z -> code <> 504%Z -> code <> 429%Z ->
  (forall error,
     starts_with_brace body = true ->
     prop response "error" = Some error ->
     assoc (property_key (safeString error "code" None)) exceptions = None ->
     handleErrors code body (Some response)
     = Thrown (Exception
                 (if bool_decide (safeString error "message" None
                                  = Some "Duplicate clientOrderId")
                  then InvalidOrder else ExchangeError)
                 (this_id +:+ " " +:+ body)))
  /\ (starts_with_brace body = false ->
      handleErrors code body (Some response)
      = Thrown (Exception ExchangeError (this_id +:+ " " +:+ body))).
Proof.
  intros Hfailed H503 H504 H429.
  unfold handleErrors.
  rewrite (proj2 (Z.leb_le 400 code) Hfailed).
  rewrite (proj2 (Z.eqb_neq code 503) H503), (proj2 (Z.eqb_neq code 504) H504),
    (proj2 (Z.eqb_neq code 429) H429).
  cbn [orb]. split.
  - intros error -> Herror Hcode.
    destruct response as [| | | | | |fields]; try discriminate.
    cbn [js_in obind]. cbn [prop] in Herror.
    destruct (assoc "error" fields) as [e|] eqn:He; [|discriminate].
    rewrite bool_decide_eq_true_2 by eauto.
    cbn [prop]. rewrite He, Herror.
    change (default JUndefined (Some error)) with error.
    unfold throwExactlyMatchedException. rewrite Hcode. cbn [obind].
    destruct (bool_decide _); reflexivity.
  - intros ->. reflexivity.
Qed.

End MoreErrors.

(** ** sign, on public calls *)

Section PublicSigning.
Context {host : Host}.

(** X5.  A public call is signed without credentials: [sign] never raises
    on it, leaves the headers and the body as they were passed (no
    [Authorization] is added) and puts the parameters the path does not name
    in the query string of the URL, whatever the method. *)
Theorem sign_public (this : exchange) (path method : string)
    (params : gmap string value)
    (headers : option (list (string * string))) (body : option string) :
  let query := omit params (extractParams path) in
  let endpoint := "https://api.hitbtc.com/api/2/public/" +:+ implodeParams path params in
  exists r,
    sign this path "public" method params headers body = Returned r
    /\ r_method r = method
    /\ r_headers r = headers
    /\ r_body r = body
    /\ r_url r = if decide (query = ∅) then endpoint
                 else endpoint +:+ "?" +:+ urlencode query.
Proof.
  intros query endpoint. subst query endpoint. unfold sign. cbv zeta.
  destruct (decide (omit params (extractParams path) = ∅)) as [Hq|Hq];
    [rewrite (bool_decide_eq_true_2 _ Hq)|rewrite (bool_decide_eq_false_2 _ Hq)].
  all: simpl; eexists; split; [reflexivity|]; simpl; repeat split; reflexivity.
Qed.

End PublicSigning.

(** ** Client order ids and the requests of createOrder and editOrder *)

Section OrderRequests.
Context {host : Host}.

Lemma substring_length_le (n : nat) (s : string) :
  String.length (substring 0 n s) <= n.
Proof.
  revert s. induction n as [|n IH]; intros [|c s]; simpl; try lia.
  specialize (IH s). lia.
Qed.

Lemma substring_whole (n : nat) (s : string) :
  String.length s <= n -> substring 0 n s = s.
Proof.
  revert s. induction n as [|n IH]; intros [|c s]; simpl; try reflexivity; try lia.
  intros Hlen. f_equal. apply IH. lia.
Qed.

Lemma substring_chars (n : nat) (s : string) (c : ascii) :
  In c (list_ascii_of_string (substring 0 n s)) -> In c (list_ascii_of_string s).
Proof.
  revert s. induction n as [|n IH]; intros [|d s]; simpl; try tauto.
  intros [->|Hc]; [now left|right; now apply IH].
Qed.

Lemma remove_dashes_chars (s : string) (c : ascii) :
  In c (list_ascii_of_string (remove_dashes s)) ->
  c <> "-"%char /\ In c (list_ascii_of_string s).
Proof.
  unfold remove_dashes. rewrite list_ascii_of_string_of_list_ascii.
  intros Hc. apply filter_In in Hc. destruct Hc as [Hin Hdash]. split; [|exact Hin].
  intros ->. discriminate Hdash.
Qed.

(** The client order id made of a uuid: at most 32 characters, none a
    dash, all of the uuid's, and the whole uuid without its dashes when that
    fits. *)
Lemma client_id_bound (uuid : string) :
  let cid := substring 0 32 (remove_dashes uuid) in
  String.length cid <= 32
  /\ (forall c, In c (list_ascii_of_string cid) ->
        c <> "-"%char /\ In c (list_ascii_of_string uuid))
  /\ (String.length (remove_dashes uuid) <= 32 -> cid = remove_dashes uuid).
Proof.
  intros cid. split; [apply substring_length_le|]. split.
  - intros c Hc. apply remove_dashes_chars. now apply (substring_chars 32).
  - apply substring_whole.
Qed.

(** [extend (a, b)], key by key. *)
Lemma extend_lookup (a b : gmap string value) (k : string) :
  extend a b !! k = match b !! k with
                   | Some v => Some v
                   | None => a !! k
                   end.
Proof.
  unfold extend. rewrite lookup_union.
  destruct (b !! k), (a !! k); reflexivity.
Qed.

(** X6.  [createOrder] hands [extend (request, params)] to the endpoint, and
    so does [editOrder].  The client order id in what [createOrder] sends,
    and the request client id in what [editOrder] sends, is the one of the
    extra params when they carry one, and is otherwise made of the uuid: at
    most 32 characters (the most the exchange accepts), none of them a dash,
    every one a character of the uuid; a uuid with at most 32 characters
    besides its dashes is sent whole, without the dashes. *)
Theorem client_order_id_sent (uuid : string) (market : market)
    (id symbol type side : string) (amount price : value) (quantity : option float)
    (params : gmap string value) :
  exists cid,
    extend (createOrder_request uuid market symbol type side amount price) params
      !! "clientOrderId"
    = Some (default (JStr cid) (params !! "clientOrderId"))
    /\ extend (editOrder_request uuid id symbol quantity price) params
         !! "requestClientId"
       = Some (default (JStr cid) (params !! "requestClientId"))
    /\ (String.length cid <= 32)%nat
    /\ (forall c, In c (list_ascii_of_string cid) ->
          c <> "-"%char /\ In c (list_ascii_of_string uuid))
    /\ ((String.length (remove_dashes uuid) <= 32)%nat -> cid = remove_dashes uuid).
Proof.
  exists (substring 0 32 (remove_dashes uuid)).
  split.
  { rewrite extend_lookup. destruct (params !! "clientOrderId"); [reflexivity|].
    unfold createOrder_request. destruct (String.eqb type "limit"); reflexivity. }
  split.
  { rewrite extend_lookup. destruct (params !! "requestClientId"); [reflexivity|].
    unfold editOrder_request. destruct quantity, (defined (Some price)); reflexivity. }
  apply client_id_bound.
Qed.

(** X7.  In what [createOrder] sends, [extend (request, params)]: for a
    limit order the price is the rounded price argument unless the extra
    params carry a price, and a time in force is sent only when the params
    carry one; for an order of any other type the time in force is the
    default "FOK" unless the params carry one, and a price is sent only when
    the params carry one, whatever price was passed as argument. *)
Theorem createOrder_sends_price_or_timeInForce (uuid : string) (market : market)
    (symbol type side : string) (amount price : value) (params : gmap string value) :
  let sent :=
    extend (createOrder_request uuid market symbol type side amount price) params in
  (type = "limit" ->
     sent !! "price"
     = Some (default (JStr (priceToPrecision symbol (defined (Some price))))
               (params !! "price"))
     /\ sent !! "timeInForce" = params !! "timeInForce")
  /\ (type <> "limit" ->
      sent !! "timeInForce" = Some (default (JStr "FOK") (params !! "timeInForce"))
      /\ sent !! "price" = params !! "price").
Proof.
  intros sent. subst sent. rewrite !extend_lookup. unfold createOrder_request. split.
  - intros ->. cbn [String.eqb Ascii.eqb Bool.eqb].
    split; [destruct (params !! "price")|destruct (params !! "timeInForce")];
      reflexivity.
  - intros Htype. destruct (String.eqb_spec type "limit"); [contradiction|].
    split; [destruct (params !! "timeInForce")|destruct (params !! "price")];
      reflexivity.
Qed.

End OrderRequests.

(** ** The order cache across calls *)

Section OrderCache.
Context {host : Host}.

(** A price known before the fills are read is the price of every order
    [parseOrder] returns. *)
Lemma parseOrder_known_price (this : exchange) (raw : value) (given : option market)
    (p : float) (o : order) :
  known_price this raw = Some p ->
  parseOrder this raw given = Returned o ->
  o_price o = Some p.
Proof.
  intros Hknown Ho.
  destruct (parseOrder_returned this raw given o Ho) as (_ & _ & _ & Hblock).
  destruct (safeValue raw "tradesReport") as [report|].
  - destruct Hblock as (ts & Hblock & _). rewrite Hknown in Hblock.
    apply (parseOrder_fills_keeps_price _ _ _ _ _ _ _ _ _ _ _ Hblock).
  - destruct Hblock as (-> & _). exact Hknown.
Qed.

(** What [createOrder] leaves when it returns. *)
Lemma createOrder_returned (this this' : exchange) (uuid symbol type side : string)
    (amount price : value) (params : gmap string value) (o : order) :
  createOrder this uuid symbol type side amount price params = Returned (o, this') ->
  this' = set_orders this (<[property_key (o_id o) := o]> (orders this))
  /\ o_status o <> Some "rejected".
Proof.
  unfold createOrder.
  destruct (market_of this symbol) as [m|]; simpl; [|discriminate].
  destruct (privatePostOrder this _) as [response|]; simpl; [|discriminate].
  destruct (parseOrder this response None) as [parsed|]; simpl; [|discriminate].
  case_bool_decide as Hstatus; [discriminate|].
  intros [= <- <-]. split; [reflexivity|exact Hstatus].
Qed.

(** X8.  The order cache serves its purpose: once [createOrder] has
    returned an order with a price, every later raw record of that order (the
    same client order id) that comes without a price is parsed, by the
    adapter [createOrder] left, with the price of the created order; and it
    is parsed when it carries no fills. *)
Theorem createOrder_price_is_recovered (this this' : exchange)
    (uuid symbol type side : string) (amount price : value)
    (params : gmap string value) (o : order) (p : float)
    (raw : value) (given : option market) :
  createOrder this uuid symbol type side amount price params = Returned (o, this') ->
  o_price o = Some p ->
  safeString raw "clientOrderId" None = o_id o ->
  safeFloat raw "price" = None ->
  (forall o', parseOrder this' raw given = Returned o' -> o_price o' = Some p)
  /\ (fills_of raw = [] ->
      exists o', parseOrder this' raw given = Returned o' /\ o_price o' = Some p).
Proof.
  intros Hcreated Hp Hid Hprice.
  destruct (createOrder_returned _ _ _ _ _ _ _ _ _ _ Hcreated) as [-> _].
  assert (known_price (set_orders this (<[property_key (o_id o) := o]> (orders this))) raw
          = Some p) as Hknown.
  { unfold known_price. rewrite Hprice, Hid. simpl. now rewrite lookup_insert_eq. }
  split.
  - intros o'. apply parseOrder_known_price. exact Hknown.
  - intros Hfills.
    destruct (parseOrder_total
                (set_orders this (<[property_key (o_id o) := o]> (orders this)))
                raw given) as (o' & Ho');
      [rewrite Hfills; constructor|now left|].
    exists o'. split; [exact Ho'|]. eapply parseOrder_known_price; eassumption.
Qed.


End OrderCache.

(** ** parseOrder, field by field *)

Section MoreOrders.
Context {host : Host}.

(** The fields of a returned order that do not depend on the fills. *)
Lemma parseOrder_fields (this : exchange) (raw : value) (given : option market)
    (o : order) :
  parseOrder this raw given = Returned o ->
  o_id o = safeString raw "clientOrderId" None
  /\ o_clientOrderId o = safeString raw "clientOrderId" None
  /\ o_status o = parseOrderStatus (safeString raw "status" None)
  /\ o_amount o = safeFloat raw "quantity"
  /\ o_remaining o = match safeFloat raw "quantity", safeFloat raw "cumQuantity" with
                     | Some a, Some f => Some (PrimFloat.sub a f)
                     | _, _ => None
                     end
  /\ o_info o = raw.
Proof.
  unfold parseOrder.
  destruct (safeString raw "symbol" None) as [mid|];
    [destruct (market_by_id this mid) as [m|]|].
  all: destruct (safeFloat raw "quantity"), (safeFloat raw "cumQuantity");
    destruct (safeValue raw "tradesReport") as [report|]; simpl.
  all: try (intros [= <-]; simpl; repeat split; reflexivity).
  all: match goal with
       | |- context [parseOrder_fills ?a ?b ?c ?d ?e ?f] =>
           destruct (parseOrder_fills a b c d e f) as [[[[[ts fee] av] co] pr]|];
           simpl; [|discriminate]
       end.
  all: intros [= <-]; simpl; repeat split; reflexivity.
Qed.

(** The cost of an order with no fills reported. *)
Lemma parseOrder_cost_without_fills (this : exchange) (raw : value)
    (given : option market) (o : order) :
  parseOrder this raw given = Returned o ->
  safeValue raw "tradesReport" = None ->
  o_cost o = match safeFloat raw "quantity", safeFloat raw "cumQuantity",
                   known_price this raw with
             | Some _, Some f, Some p => Some (PrimFloat.mul f p)
             | _, _, _ => None
             end.
Proof.
  unfold parseOrder, known_price. intros Ho Hreport. rewrite Hreport in Ho.
  destruct (safeString raw "symbol" None) as [mid|];
    [destruct (market_by_id this mid) as [m|]|].
  all: destruct (safeFloat raw "quantity"), (safeFloat raw "cumQuantity");
    simpl in Ho; injection Ho as <-; simpl; try reflexivity.
  all: destruct (safeFloat raw "price"); try reflexivity.
  all: destruct (orders this !! _) as [cached|]; try reflexivity.
  all: destruct (o_price cached); reflexivity.
Qed.

(** X10.  The unified id of every order [parseOrder] returns is the client
    order id of the raw record, never the exchange's own id: [id] and
    [clientOrderId] are equal, both are the record's "clientOrderId" (unset
    when it has none, whatever its "id"), and [info] is the raw record. *)
Theorem parseOrder_id_is_clientOrderId (this : exchange) (raw : value)
    (given : option market) (o : order) :
  parseOrder this raw given = Returned o ->
  o_id o = safeString raw "clientOrderId" None
  /\ o_clientOrderId o = o_id o
  /\ o_info o = raw.
Proof.
  intros Ho.
  destruct (parseOrder_fields this raw given o Ho) as (Hid & Hclient & _ & _ & _ & Hinfo).
  repeat split; congruence.
Qed.

(** X12.  With no fills reported, [parseOrder] returns on every value, even
    [null]: fee, average and trades are unset, the price is the record's own
    or else the cached order's, [remaining = amount - filled] when both are
    defined, and [cost = filled * price] only when amount, filled and price
    are all three defined (with no amount the cost stays unset even if filled
    and price are known). *)
Theorem parseOrder_without_fills (this : exchange) (raw : value)
    (given : option market) :
  safeValue raw "tradesReport" = None ->
  exists o, parseOrder this raw given = Returned o
    /\ o_fee o = None /\ o_average o = None /\ o_trades o = None
    /\ o_price o = known_price this raw
    /\ o_remaining o = match safeFloat raw "quantity", safeFloat raw "cumQuantity" with
                       | Some a, Some f => Some (PrimFloat.sub a f)
                       | _, _ => None
                       end
    /\ o_cost o = match safeFloat raw "quantity", safeFloat raw "cumQuantity",
                        known_price this raw with
                  | Some _, Some f, Some p => Some (PrimFloat.mul f p)
                  | _, _, _ => None
                  end.
Proof.
  intros Hreport.
  destruct (parseOrder_total this raw given) as (o & Ho).
  { unfold fills_of. rewrite Hreport. constructor. }
  { left. unfold fills_of. now rewrite Hreport. }
  exists o. split; [exact Ho|].
  destruct (parseOrder_returned this raw given o Ho) as (_ & _ & _ & Hblock).
  rewrite Hreport in Hblock. destruct Hblock as (Hprice & Hfee & Haverage & Htrades).
  destruct (parseOrder_fields this raw given o Ho) as (_ & _ & _ & _ & Hremaining & _).
  repeat split; try assumption.
  exact (parseOrder_cost_without_fills this raw given o Ho Hreport).
Qed.

(** X13.  An empty list of fills is not the same as none: [parseOrder]
    then returns, whether a market is known or not, an order with no fee and
    an empty list of trades whose cost is 0, whatever [filled * price] is,
    and whose average, when the filled quantity is above zero, is
    [0 / filled]. *)
Theorem parseOrder_empty_fills (this : exchange) (raw : value)
    (given : option market) (report : value) :
  safeValue raw "tradesReport" = Some report ->
  object_values report = [] ->
  exists o, parseOrder this raw given = Returned o
    /\ o_cost o = Some 0%float
    /\ o_fee o = None
    /\ o_trades o = Some []
    /\ o_average o = match safeFloat raw "cumQuantity" with
                     | Some f => if PrimFloat.ltb 0 f
                                 then Some (PrimFloat.div 0 f)
                                 else None
                     | None => None
                     end.
Proof.
  intros Hreport Hempty.
  assert (parseTrades this report (order_market this raw given) = Returned []) as Hts
    by (unfold parseTrades; now rewrite Hempty).
  pose proof (parseOrder_fills_eq this report (order_market this raw given)
                (safeFloat raw "cumQuantity") (safeString raw "type" None)
                (known_price this raw) [] None (Some 0%float) Hts eq_refl) as Hfills.
  simpl in Hfills.
  destruct (parseOrder_returns this raw given) as (o & Ho).
  { intros report' Hr. rewrite Hreport in Hr. injection Hr as <-.
    rewrite Hfills. eauto. }
  exists o. split; [exact Ho|].
  destruct (parseOrder_returned this raw given o Ho) as (_ & _ & _ & Hblock).
  rewrite Hreport in Hblock. destruct Hblock as (ts & Hblock & Htrades).
  rewrite Hfills in Hblock. injection Hblock as <- Hfee Haverage Hcost _.
  rewrite <- Hcost, <- Hfee, Htrades, <- Haverage.
  repeat split. unfold fills_average.
  destruct (safeFloat raw "cumQuantity") as [f|]; reflexivity.
Qed.

(** The block over the fills raises what [parseTrades] raises. *)
Lemma parseOrder_fills_raises (this : exchange) (report : value)
    (market : option market) (filled : number) (type : option string) (price : number)
    (e : exception) :
  parseTrades this report market = Thrown e ->
  parseOrder_fills this report market filled type price = Thrown e.
Proof. intros Hts. unfold parseOrder_fills. now rewrite Hts. Qed.

(** X14.  A [null] among the fills makes [parseOrder] raise a [TypeError]
    (from reading the fill's timestamp), whatever else the order holds. *)
Theorem parseOrder_unreadable_fill (this : exchange) (raw : value)
    (given : option market) (report : value) :
  safeValue raw "tradesReport" = Some report ->
  Exists (fun v => readable v = false) (object_values report) ->
  exists e, parseOrder this raw given = Thrown e /\ exn_class e = TypeError.
Proof.
  intros Hreport Hbad.
  destruct (parseTrades_unreadable this report (order_market this raw given) Hbad)
    as (e & Hts & Hclass).
  exists e. split; [|exact Hclass].
  apply (parseOrder_raises this raw given report e Hreport).
  now apply parseOrder_fills_raises.
Qed.

End MoreOrders.

(** ** The status and type tables *)

Section Tables.
Context {host : Host}.

#[local] Ltac by_table s :=
  repeat match goal with
         | |- context [String.eqb s ?k] =>
             destruct (String.eqb_spec s k) as [->|?]
         end.

(** The string of an inherited member is the prototype's or a function's
    text. *)
Lemma inherited_string_shape (k : string) :
  inherited_string k = "[object Object]"
  \/ exists tail, inherited_string k = "function" +:+ tail.
Proof. unfold inherited_string. destruct (String.eqb k "__proto__"); eauto. Qed.

(** Such a string is no key of the three tables, no inherited name and no
    status or type name of the exchange. *)
Lemma inherited_string_other (k : string) :
  assoc (inherited_string k) statuses = None
  /\ assoc (inherited_string k) transaction_statuses = None
  /\ assoc (inherited_string k) transaction_types = None
  /\ inherited (inherited_string k) = false
  /\ ~ In (inherited_string k)
         ["new"; "suspended"; "partiallyFilled"; "filled"; "expired"; "closed";
          "canceled"; "success"; "payin"; "payout"; "withdraw"].
Proof.
  destruct (inherited_string_shape k) as [->|(tail & ->)].
  - repeat split; try reflexivity. simpl. intuition discriminate.
  - repeat split; try reflexivity. simpl. intuition discriminate.
Qed.

(** The raw statuses that become "closed" and "canceled". *)
Lemma parseOrderStatus_closed (status : option string) :
  parseOrderStatus status = Some "closed" <->
  status = Some "filled" \/ status = Some "closed".
Proof.
  destruct status as [s|]; [|split; [discriminate|intros [H|H]; discriminate H]].
  unfold parseOrderStatus, property_key, statuses. cbn [assoc].
  by_table s; try congruence;
    (split;
     [ intros H; try discriminate H
     | intros [H|H]; try discriminate H; try congruence ]); auto.
  - destruct (inherited s) eqn:Hown.
    + injection H as H. exfalso.
      apply (proj2 (proj2 (proj2 (proj2 (inherited_string_other s))))).
      rewrite H. simpl. tauto.
    + now right.
  - injection H as ->. reflexivity.
Qed.

Lemma parseOrderStatus_canceled (status : option string) :
  parseOrderStatus status = Some "canceled" <-> status = Some "canceled".
Proof.
  destruct status as [s|]; [|split; discriminate].
  unfold parseOrderStatus, property_key, statuses. cbn [assoc].
  by_table s; try congruence;
    (split; intros H; try discriminate H; try congruence); auto.
  destruct (inherited s) eqn:Hown; [|exact H].
  injection H as H. exfalso.
  apply (proj2 (proj2 (proj2 (proj2 (inherited_string_other s))))).
  rewrite H. simpl. tauto.
Qed.

(** A table lookup leaves the string of an inherited member as it is. *)
Lemma parseOrderStatus_inherited (k : string) :
  parseOrderStatus (Some (inherited_string k)) = Some (inherited_string k).
Proof.
  destruct (inherited_string_other k) as (Htable & _ & _ & Hown & _).
  unfold parseOrderStatus, property_key. now rewrite Htable, Hown.
Qed.

(** X11.  [parseOrderStatus] is idempotent, and what it gives is never one of
    the exchange's own names "new", "suspended", "partiallyFilled", "filled"
    and "expired". *)
Theorem parseOrderStatus_idempotent (status : option string) :
  parseOrderStatus (parseOrderStatus status) = parseOrderStatus status
  /\ ~ In (parseOrderStatus status)
         [Some "new"; Some "suspended"; Some "partiallyFilled"; Some "filled";
          Some "expired"].
Proof.
  destruct status as [s|]; [|split; [reflexivity|simpl; intuition discriminate]].
  destruct (assoc s statuses) as [u|] eqn:Htable.
  - revert Htable. unfold parseOrderStatus at 2 3, property_key, statuses. cbn [assoc].
    by_table s; try congruence; try discriminate;
      intros _; (split; [reflexivity|simpl; intuition discriminate]).
  - destruct (inherited s) eqn:Hown.
    + assert (parseOrderStatus (Some s) = Some (inherited_string s)) as ->
        by (unfold parseOrderStatus, property_key; now rewrite Htable, Hown).
      split; [apply parseOrderStatus_inherited|].
      intros Hin. apply (proj2 (proj2 (proj2 (proj2 (inherited_string_other s))))).
      simpl in *. intuition congruence.
    + assert (parseOrderStatus (Some s) = Some s) as Hsame
        by (unfold parseOrderStatus, property_key; now rewrite Htable, Hown).
      rewrite !Hsame. split; [reflexivity|].
      revert Htable. unfold statuses. cbn [assoc].
      by_table s; try discriminate. intros _. simpl. intuition congruence.
Qed.

(** What the transaction tables never give. *)
Lemma parseTransactionStatus_unified (status : option string) :
  parseTransactionStatus status <> Some "success".
Proof.
  destruct status as [s|]; [|discriminate].
  unfold parseTransactionStatus, property_key, transaction_statuses. cbn [assoc].
  by_table s; try congruence; try discriminate.
  destruct (inherited s); [|congruence].
  intros [= H]. apply (proj2 (proj2 (proj2 (proj2 (inherited_string_other s))))).
  rewrite H. simpl. tauto.
Qed.

Lemma parseTransactionType_unified (type : option string) :
  ~ In (parseTransactionType type) [Some "payin"; Some "payout"; Some "withdraw"].
Proof.
  destruct type as [s|]; [|simpl; intuition discriminate].
  unfold parseTransactionType, property_key, transaction_types. cbn [assoc].
  by_table s; try congruence; try (simpl; intuition discriminate).
  destruct (inherited s); [|simpl; intuition congruence].
  intros Hin. apply (proj2 (proj2 (proj2 (proj2 (inherited_string_other s))))).
  simpl in *. intuition congruence.
Qed.

Lemma parseTransactionStatus_idempotent (status : option string) :
  parseTransactionStatus (parseTransactionStatus status) = parseTransactionStatus status.
Proof.
  destruct status as [s|]; [|reflexivity].
  destruct (assoc s transaction_statuses) as [u|] eqn:Htable.
  - revert Htable.
    unfold parseTransactionStatus at 2 3, property_key, transaction_statuses.
    cbn [assoc]. by_table s; try congruence; try discriminate; reflexivity.
  - destruct (inherited s) eqn:Hown.
    + assert (parseTransactionStatus (Some s) = Some (inherited_string s)) as ->
        by (unfold parseTransactionStatus, property_key; now rewrite Htable, Hown).
      destruct (inherited_string_other s) as (_ & Hother & _ & Hnot & _).
      unfold parseTransactionStatus, property_key. now rewrite Hother, Hnot.
    + assert (parseTransactionStatus (Some s) = Some s) as Hsame
        by (unfold parseTransactionStatus, property_key; now rewrite Htable, Hown).
      now rewrite !Hsame.
Qed.

Lemma parseTransactionType_idempotent (type : option string) :
  parseTransactionType (parseTransactionType type) = parseTransactionType type.
Proof.
  destruct type as [s|]; [|reflexivity].
  destruct (assoc s transaction_types) as [u|] eqn:Htable.
  - revert Htable.
    unfold parseTransactionType at 2 3, property_key, transaction_types.
    cbn [assoc]. by_table s; try congruence; try discriminate; reflexivity.
  - destruct (inherited s) eqn:Hown.
    + assert (parseTransactionType (Some s) = Some (inherited_string s)) as ->
        by (unfold parseTransactionType, property_key; now rewrite Htable, Hown).
      destruct (inherited_string_other s) as (_ & _ & Hother & Hnot & _).
      unfold parseTransactionType, property_key. now rewrite Hother, Hnot.
    + assert (parseTransactionType (Some s) = Some s) as Hsame
        by (unfold parseTransactionType, property_key; now rewrite Htable, Hown).
      now rewrite !Hsame.
Qed.

(** X19.  [parseTransactionStatus] and [parseTransactionType] are idempotent;
    the status they give is never "success" and the type never "payin",
    "payout" or "withdraw". *)
Theorem parseTransaction_tables (status type : option string) :
  parseTransactionStatus (parseTransactionStatus status) = parseTransactionStatus status
  /\ parseTransactionType (parseTransactionType type) = parseTransactionType type
  /\ parseTransactionStatus status <> Some "success"
  /\ ~ In (parseTransactionType type) [Some "payin"; Some "payout"; Some "withdraw"].
Proof.
  repeat apply conj.
  - apply parseTransactionStatus_idempotent.
  - apply parseTransactionType_idempotent.
  - apply parseTransactionStatus_unified.
  - apply parseTransactionType_unified.
Qed.

End Tables.

(** ** parseTrade: symbol and fee *)

Section MoreTrades.
Context {host : Host}.

(** X16.  On a record whose members can be read, [parseTrade] returns a
    trade whose symbol is decided by the record's own symbol id first: the
    unified symbol of the market listed under it, even when another market
    is passed; no symbol at all, and no fee currency, when the id is not
    listed but names a member the market table inherits from
    [Object.prototype] (the operator [in] finds it), even when a market is
    passed; the raw id itself when the id is neither listed nor inherited,
    even when a market is passed; the passed market's symbol only when the
    record has no symbol id.  The fee is set exactly when the record has a
    fee, with the fee currency of the member found under the id, else of the
    passed market. *)
Theorem parseTrade_symbol_and_fee (this : exchange) (raw : value)
    (given : option market) :
  readable raw = true ->
  exists t, parseTrade this raw given = Returned t
    /\ (forall mid m, safeString raw "symbol" None = Some mid ->
          markets_by_id this !! mid = Some m -> t_symbol t = m_symbol m)
    /\ (forall mid, safeString raw "symbol" None = Some mid ->
          markets_by_id this !! mid = None -> inherited mid = true ->
          t_symbol t = None
          /\ forall f, t_fee t = Some f -> fee_currency f = None)
    /\ (forall mid, safeString raw "symbol" None = Some mid ->
          markets_by_id this !! mid = None -> inherited mid = false ->
          t_symbol t = Some mid)
    /\ (safeString raw "symbol" None = None ->
          t_symbol t = match given with
                       | Some m => m_symbol m
                       | None => None
                       end)
    /\ t_fee t = match safeFloat raw "fee" with
                 | Some c =>
                     Some {| fee_cost := Some c;
                             fee_currency := match order_market this raw given with
                                             | Some m => m_feeCurrency m
                                             | None => None
                                             end |}
                 | None => None
                 end
    /\ t_order t = safeString raw "clientOrderId" None.
Proof.
  intros Hraw. unfold parseTrade, order_market, market_by_id.
  assert (index raw "timestamp" = Returned (prop raw "timestamp")) as ->
    by (destruct raw; try discriminate; reflexivity).
  cbn [obind].
  destruct (safeString raw "symbol" None) as [mid|];
    [destruct (markets_by_id this !! mid) as [m|] eqn:Hlisted;
     [|destruct (inherited mid) eqn:Hown]|]; cbn zeta iota.
  all: eexists; split; [reflexivity|]; cbn [t_symbol t_fee t_order].
  - split; [intros mid' m' [= <-] Hm; congruence|].
    split; [intros mid' [= <-] Hm; congruence|].
    split; [intros mid' [= <-] Hm; congruence|].
    split; [discriminate|]. split; reflexivity.
  - split; [intros mid' m' [= <-] Hm; congruence|].
    split.
    { intros mid' [= <-] _ _. split; [reflexivity|].
      intros f. destruct (safeFloat raw "fee"); [|discriminate].
      intros [= <-]. reflexivity. }
    split; [intros mid' [= <-] _ Hnot; congruence|].
    split; [discriminate|]. split; reflexivity.
  - split; [intros mid' m' [= <-] Hm; congruence|].
    split; [intros mid' [= <-] _ Hnot; congruence|].
    split; [intros mid' [= <-] _ _; destruct given; reflexivity|].
    split; [discriminate|]. split; reflexivity.
  - split; [discriminate|]. split; [discriminate|]. split; [discriminate|].
    split; [reflexivity|]. split; reflexivity.
Qed.

End MoreTrades.

(** ** Fetching orders *)

Section FetchOrders.
Context {host : Host} {base : Base}.

(** X17.  [fetchOrder] looks at the first entry of the answer only: an empty
    list, or an object with no length, raises [OrderNotFound] with the
    message "hitbtc order <id> not found"; a non-empty list gives what
    [parseOrder] gives on its first entry, whatever follows it. *)
Theorem fetchOrder_first_or_not_found (this : exchange) (id : string)
    (symbol : option string) (params : gmap string value) (response : value) :
  privateGetHistoryOrder this
    (extend ({[ "clientOrderId" := JStr id ]} : gmap string value) params)
  = Returned response ->
  (response = JArr [] ->
     fetchOrder this id symbol params
     = throw OrderNotFound ("hitbtc order " +:+ id +:+ " not found"))
  /\ (forall fields, response = JObj fields -> prop response "length" = None ->
     fetchOrder this id symbol params
     = throw OrderNotFound ("hitbtc order " +:+ id +:+ " not found"))
  /\ (forall first rest, response = JArr (first :: rest) ->
     fetchOrder this id symbol params = parseOrder this first None).
Proof.
  intros Hresponse. unfold fetchOrder. rewrite Hresponse. simpl.
  repeat apply conj.
  - intros ->. reflexivity.
  - intros fields -> Hlength. simpl in *. rewrite Hlength. reflexivity.
  - intros first rest ->. simpl. destruct first; reflexivity.
Qed.

(** What [traverse] returns is the list of what its function returns. *)
Lemma traverse_returned {A B : Type} (f : A -> outcome B) (l : list A) (l' : list B) :
  traverse f l = Returned l' -> Forall2 (fun a b => f a = Returned b) l l'.
Proof.
  revert l'. induction l as [|a l IH]; simpl; intros l'.
  - intros [= <-]. constructor.
  - destruct (f a) as [b|e] eqn:Ha; simpl; [|discriminate].
    destruct (traverse f l) as [bs|e]; simpl; [|discriminate].
    intros [= <-]. constructor; auto.
Qed.

Lemma traverse_returns {A B : Type} (f : A -> outcome B) (l : list A) :
  Forall (fun a => exists b, f a = Returned b) l ->
  exists l', traverse f l = Returned l'.
Proof.
  induction 1 as [|a l (b & Hb) _ (bs & Hbs)]; simpl.
  - eauto.
  - rewrite Hb. simpl. rewrite Hbs. simpl. eauto.
Qed.

Lemma closed_or_canceled_iff (o : order) :
  closed_or_canceled o = true <->
  o_status o = Some "closed" \/ o_status o = Some "canceled".
Proof.
  unfold closed_or_canceled. rewrite orb_true_iff, !bool_decide_eq_true. tauto.
Qed.

(** X18.  The loop of [fetchClosedOrders] returns whenever every entry of
    the answer parses, and keeps a parsed order exactly when the raw status
    of its entry is "filled", "closed" or "canceled": every kept order has
    the unified status "closed" or "canceled" and comes from such an entry,
    and every such entry that parses has its order kept (entries with status
    "new", "suspended", "partiallyFilled" or "expired" never are). *)
Theorem fetchClosedOrders_keeps (this : exchange) (response : value)
    (given : option market) :
  Forall (fun raw => exists o, parseOrder this raw given = Returned o)
    (object_values response) ->
  exists kept, fetchClosedOrders_kept this response given = Returned kept
    /\ Forall (fun o => o_status o = Some "closed" \/ o_status o = Some "canceled") kept
    /\ (forall o, In o kept <->
          exists raw, In raw (object_values response)
            /\ parseOrder this raw given = Returned o
            /\ In (safeString raw "status" None)
                 [Some "filled"; Some "closed"; Some "canceled"]).
Proof.
  intros Hall. unfold fetchClosedOrders_kept, parseOrders.
  destruct (traverse_returns _ _ Hall) as (parsed & Hparsed).
  rewrite Hparsed. simpl. eexists. split; [reflexivity|].
  pose proof (traverse_returned _ _ _ Hparsed) as Hpairs.
  assert (forall raw o, parseOrder this raw given = Returned o ->
            (closed_or_canceled o = true <->
             In (safeString raw "status" None)
               [Some "filled"; Some "closed"; Some "canceled"])) as Hkept.
  { intros raw o Ho.
    destruct (parseOrder_fields this raw given o Ho) as (_ & _ & Hstatus & _).
    rewrite closed_or_canceled_iff, Hstatus,
      parseOrderStatus_closed, parseOrderStatus_canceled.
    simpl. intuition congruence. }
  split.
  - apply List.Forall_forall. intros o Ho. apply List.filter_In in Ho.
    now apply closed_or_canceled_iff.
  - intros o. rewrite List.filter_In. split.
    + intros (Hin & Hclosed).
      clear Hparsed Hall.
      induction Hpairs as [|raw o' raws os Ho' _ IH]; [destruct Hin|].
      destruct Hin as [->|Hin].
      * exists raw. split; [now left|]. split; [exact Ho'|].
        now apply (Hkept raw o Ho').
      * destruct (IH Hin) as (raw' & Hraw' & Hrest). exists raw'.
        split; [now right|exact Hrest].
    + intros (raw & Hin & Ho & Hstatus).
      split; [|now apply (Hkept raw o Ho)].
      clear Hparsed Hall.
      induction Hpairs as [|raw' o' raws os Ho' _ IH]; [destruct Hin|].
      destruct Hin as [->|Hin].
      * left. congruence.
      * right. auto.
Qed.

End FetchOrders.

(** ** Transactions, currencies, tickers and fees *)

Section Listings.
Context {host : Host} {base : Base}.

(** X20.  [parseTransaction] sets the fee exactly when the record has a
    finite fee, with the cost read from the record and the currency of the
    transaction as its currency; it never sets the tag, and its status and
    type are never the exchange's own "success", "payin", "payout" or
    "withdraw". *)
Theorem parseTransaction_fee (this : exchange) (raw : value) (currency : option currency) :
  let tx := parseTransaction this raw currency in
  (tx_fee tx = None <-> safeFloat raw "fee" = None)
  /\ (forall f, tx_fee tx = Some f ->
        fee_cost f = safeFloat raw "fee" /\ fee_currency f = tx_currency tx)
  /\ tx_tag tx = None
  /\ tx_status tx <> Some "success"
  /\ ~ In (tx_type tx) [Some "payin"; Some "payout"; Some "withdraw"].
Proof.
  unfold parseTransaction. simpl. split; [|split; [|split; [|split]]].
  - destruct (safeFloat raw "fee"); split; intros H; try discriminate H; reflexivity.
  - intros f. destruct (safeFloat raw "fee"); [|discriminate].
    intros [= <-]. split; reflexivity.
  - reflexivity.
  - apply parseTransactionStatus_unified.
  - apply parseTransactionType_unified.
Qed.

(** A member that is truthy is there. *)
Lemma truthy_member_in (fields : list (string * value)) (k : string) :
  bool_decide (is_Some (assoc k fields)) && truthy_member (prop (JObj fields) k)
  = truthy_member (prop (JObj fields) k).
Proof.
  simpl. destruct (assoc k fields) as [v|]; reflexivity.
Qed.

(** The loop body of [fetchCurrencies] returns on every object. *)
Lemma fetchCurrencies_entry_object (this : exchange) (fields : list (string * value)) :
  exists entry, fetchCurrencies_entry this (JObj fields) = Returned entry.
Proof. unfold fetchCurrencies_entry. cbn [js_in obind]. eauto. Qed.

(** X21.  On every object, the loop body of [fetchCurrencies] returns an
    entry whose [active] is truthy exactly when the record's payinEnabled,
    payoutEnabled and transferEnabled are all truthy and its disabled is not
    (whatever its delisted says), whose type is "crypto" when the record's
    crypto is truthy and "fiat" otherwise, whose precision is 8 and whose
    code is the base client's code for the record's id. *)
Theorem fetchCurrencies_entry_flags (this : exchange) (fields : list (string * value)) :
  let raw := JObj fields in
  exists entry, fetchCurrencies_entry this raw = Returned entry
    /\ truthy_member (ce_active entry)
       = truthy_member (safeValue raw "payinEnabled")
         && truthy_member (safeValue raw "payoutEnabled")
         && truthy_member (safeValue raw "transferEnabled")
         && negb (truthy_member (prop raw "disabled"))
    /\ ce_type entry = (if truthy_member (prop raw "crypto") then "crypto" else "fiat")
    /\ ce_precision entry = 8%Z
    /\ ce_id entry = safeString raw "id" None
    /\ ce_code entry = safeCurrencyCode this (ce_id entry) None.
Proof.
  intros raw. unfold fetchCurrencies_entry. subst raw.
  cbn [js_in obind]. rewrite !truthy_member_in.
  eexists. split; [reflexivity|]. cbn [ce_active ce_type ce_precision ce_id ce_code].
  repeat apply conj; try reflexivity.
  unfold js_and.
  destruct (truthy_member (prop (JObj fields) "disabled")).
  - rewrite andb_false_r. reflexivity.
  - rewrite andb_true_r.
    destruct (truthy_member (safeValue (JObj fields) "payinEnabled")) eqn:Hpayin;
      simpl; [|now rewrite Hpayin].
    destruct (truthy_member (safeValue (JObj fields) "payoutEnabled")) eqn:Hpayout;
      simpl; [reflexivity|now rewrite Hpayout].
Qed.

(** A loop returns when every turn does. *)
Lemma fold_outcome_returns {A B : Type} (f : B -> A -> outcome B) (l : list A) (b : B) :
  Forall (fun a => forall b, exists b', f b a = Returned b') l ->
  exists b', fold_outcome f l b = Returned b'.
Proof.
  intros Hall. revert b. induction Hall as [|a l Ha _ IH]; intros b; simpl.
  - eauto.
  - destruct (Ha b) as (b' & ->). simpl. apply IH.
Qed.

(** A loop raises when one turn does, and what it raises is raised by a
    turn. *)
Lemma fold_outcome_raises {A B : Type} (f : B -> A -> outcome B) (l : list A) (b : B)
    (P : exception -> Prop) :
  (forall a b e, f b a = Thrown e -> P e) ->
  Exists (fun a => forall b, exists e, f b a = Thrown e) l ->
  exists e, fold_outcome f l b = Thrown e /\ P e.
Proof.
  intros Hclass Hbad. revert b. induction Hbad as [a l Ha|a l _ IH]; intros b; simpl.
  - destruct (Ha b) as (e & He). rewrite He. simpl. eauto.
  - destruct (f b a) as [b'|e] eqn:Hturn; simpl; [apply IH|eauto].
Qed.

(** X22.  [fetchCurrencies] does not skip what is not a record: it returns
    when every entry of the list is an object, and raises a [TypeError] as
    soon as the list holds a [null], an undefined entry, a string, a number
    or a boolean. *)
Theorem fetchCurrencies_needs_objects (this : exchange) (items : list value) :
  (Forall (fun raw => exists fields, raw = JObj fields) items ->
     exists result, fetchCurrencies_parse this (JArr items) = Returned result)
  /\ (Exists (fun raw => match raw with
                         | JObj _ | JArr _ => False
                         | _ => True
                         end) items ->
     exists e, fetchCurrencies_parse this (JArr items) = Thrown e
               /\ exn_class e = TypeError).
Proof.
  unfold fetchCurrencies_parse. simpl. split.
  - intros Hall. apply fold_outcome_returns.
    apply (Forall_impl _ _ _ Hall). intros raw (fields & ->) result.
    unfold fetchCurrencies_step.
    destruct (fetchCurrencies_entry_object this fields) as (entry & ->).
    simpl. eauto.
  - intros Hbad. apply fold_outcome_raises.
    + intros raw result e. unfold fetchCurrencies_step, fetchCurrencies_entry.
      destruct raw; simpl; try (intros [= <-]; reflexivity); discriminate.
    + apply (Exists_impl _ _ _ Hbad). intros raw Hraw result.
      unfold fetchCurrencies_step, fetchCurrencies_entry.
      destruct raw; simpl; try (destruct Hraw); eauto.
Qed.

(** [safeString] finds a string on objects only. *)
Lemma safeString_object (raw : value) (k s : string) :
  safeString raw k None = Some s -> exists fields, raw = JObj fields.
Proof. destruct raw; try discriminate. eauto. Qed.

Lemma parseTicker_object (fields : list (string * value)) (market : option market) :
  exists tk, parseTicker (JObj fields) market = Returned tk.
Proof.
  unfold parseTicker. simpl.
  destruct (safeFloat (JObj fields) "last"), (safeFloat (JObj fields) "open"); eauto.
Qed.

(** One turn of the loop of [fetchTickers]. *)
Lemma fetchTickers_step_returns (this : exchange) (result : gmap string ticker)
    (raw : value) :
  exists result', fetchTickers_step this result raw = Returned result'
    /\ (forall key, is_Some (result' !! key) <->
          is_Some (result !! key)
          \/ exists mid, safeString raw "symbol" None = Some mid
               /\ key = match market_by_id this mid with
                        | Some m => property_key (m_symbol m)
                        | None => mid
                        end)
    /\ (forall key tk, result' !! key = Some tk ->
          result !! key = Some tk
          \/ exists mid, safeString raw "symbol" None = Some mid
               /\ parseTicker raw (market_by_id this mid) = Returned tk).
Proof.
  unfold fetchTickers_step.
  destruct (safeString raw "symbol" None) as [mid|] eqn:Hmid.
  - destruct (safeString_object raw "symbol" mid Hmid) as (fields & ->).
    destruct (market_by_id this mid) as [m|] eqn:Hlisted.
    + destruct (parseTicker_object fields (Some m)) as (tk & Htk). rewrite Htk. simpl.
      eexists. split; [reflexivity|]. split.
      * intros key. destruct (decide (property_key (m_symbol m) = key)) as [<-|Hkey].
        -- rewrite lookup_insert_eq. split; [|eauto]. intros _. right. exists mid.
           now rewrite Hlisted.
        -- rewrite lookup_insert_ne by exact Hkey. split; [auto|].
           intros [H|(mid' & [= <-] & Hk)]; [exact H|]. rewrite Hlisted in Hk. congruence.
      * intros key tk'. destruct (decide (property_key (m_symbol m) = key)) as [<-|Hkey].
        -- rewrite lookup_insert_eq. intros [= <-]. right. exists mid.
           now rewrite Hlisted.
        -- rewrite lookup_insert_ne by exact Hkey. auto.
    + destruct (parseTicker_object fields None) as (tk & Htk). rewrite Htk. simpl.
      eexists. split; [reflexivity|]. split.
      * intros key. destruct (decide (mid = key)) as [<-|Hkey].
        -- rewrite lookup_insert_eq. split; [|eauto]. intros _. right. exists mid.
           now rewrite Hlisted.
        -- rewrite lookup_insert_ne by exact Hkey. split; [auto|].
           intros [H|(mid' & [= <-] & Hk)]; [exact H|]. rewrite Hlisted in Hk. congruence.
      * intros key tk'. destruct (decide (mid = key)) as [<-|Hkey].
        -- rewrite lookup_insert_eq. intros [= <-]. right. exists mid.
           now rewrite Hlisted.
        -- rewrite lookup_insert_ne by exact Hkey. auto.
  - eexists. split; [reflexivity|]. split.
    + intros key. split; [auto|]. intros [H|(mid & Hm & _)]; [exact H|discriminate].
    + auto.
Qed.

Lemma fetchTickers_loop (this : exchange) (items : list value)
    (result : gmap string ticker) :
  exists result', fold_outcome (fetchTickers_step this) items result = Returned result'
    /\ (forall key, is_Some (result' !! key) <->
          is_Some (result !! key)
          \/ exists raw mid, In raw items /\ safeString raw "symbol" None = Some mid
               /\ key = match market_by_id this mid with
                        | Some m => property_key (m_symbol m)
                        | None => mid
                        end)
    /\ (forall key tk, result' !! key = Some tk ->
          result !! key = Some tk
          \/ exists raw mid, In raw items /\ safeString raw "symbol" None = Some mid
               /\ parseTicker raw (market_by_id this mid) = Returned tk).
Proof.
  revert result. induction items as [|raw items IH]; intros result; simpl.
  - eexists. split; [reflexivity|]. split.
    + intros key. split; [auto|]. intros [H|(raw & mid & [] & _)]. exact H.
    + auto.
  - destruct (fetchTickers_step_returns this result raw) as (result1 & -> & Hkeys1 & Hvals1).
    simpl. destruct (IH result1) as (result' & -> & Hkeys & Hvals).
    eexists. split; [reflexivity|]. split.
    + intros key. rewrite Hkeys, Hkeys1. split.
      * intros [[H|(mid & Hmid & Hkey)]|(raw' & mid & Hin & Hrest)]; eauto 8.
      * intros [H|(raw' & mid & [<-|Hin] & Hrest)]; eauto 8.
    + intros key tk Htk. destruct (Hvals key tk Htk) as [H|(raw' & mid & Hin & Hrest)].
      * destruct (Hvals1 key tk H) as [H1|(mid & Hmid & Hparse)]; eauto 8.
      * eauto 8.
Qed.

(** The key a ticker is stored under, case by case. *)
Lemma ticker_key (this : exchange) (mid : string) :
  match market_by_id this mid with
  | Some m => property_key (m_symbol m)
  | None => mid
  end
  = match markets_by_id this !! mid with
    | Some m => property_key (m_symbol m)
    | None => if inherited mid then "undefined" else mid
    end.
Proof.
  unfold market_by_id. destruct (markets_by_id this !! mid); [reflexivity|].
  destruct (inherited mid); reflexivity.
Qed.

(** X23.  On a list, [fetchTickers] never raises: entries with no symbol id
    (a [null] among them) are skipped, and the result has a ticker exactly
    under the unified symbol of each listed symbol id of the list, under the
    key "undefined" for each id that is not listed but names a member the
    market table inherits from [Object.prototype] (the operator [in] finds
    it, and the member has no symbol), and under the raw id of each id that
    is neither; every ticker of the result is what [parseTicker] gives on an
    entry of the list, with the member found under its id as market. *)
Theorem fetchTickers_keys (this : exchange) (symbols : value)
    (params : gmap string value) (items : list value) :
  publicGetTicker this params = Returned (JArr items) ->
  exists result, fetchTickers this symbols params = Returned result
    /\ (forall key, is_Some (result !! key) <->
          exists raw mid, In raw items /\ safeString raw "symbol" None = Some mid
            /\ key = match markets_by_id this !! mid with
                     | Some m => property_key (m_symbol m)
                     | None => if inherited mid then "undefined" else mid
                     end)
    /\ (forall key tk, result !! key = Some tk ->
          exists raw mid, In raw items /\ safeString raw "symbol" None = Some mid
            /\ parseTicker raw (market_by_id this mid) = Returned tk).
Proof.
  intros Hresponse. unfold fetchTickers. rewrite Hresponse. simpl.
  destruct (fetchTickers_loop this items ∅) as (result & -> & Hkeys & Hvals).
  exists result. split; [reflexivity|]. split.
  - intros key. rewrite Hkeys. split.
    + intros [H|(raw & mid & Hin & Hmid & Hkey)].
      * rewrite lookup_empty in H. destruct H. discriminate.
      * exists raw, mid. rewrite <- ticker_key. auto.
    + intros (raw & mid & Hin & Hmid & Hkey). right. exists raw, mid.
      rewrite ticker_key. auto.
  - intros key tk Htk. destruct (Hvals key tk Htk) as [H|H]; [|exact H].
    rewrite lookup_empty in H. discriminate.
Qed.

(** X24.  When the answer of the exchange to [fetchTicker] is an object with
    a "message" member, [fetchTicker] raises [ExchangeError] with the message
    "hitbtc " followed by that member; with no such member it gives what
    [parseTicker] gives on the answer with the market of the symbol. *)
Theorem fetchTicker_message (this : exchange) (symbol : string)
    (params : gmap string value) (market : market) (fields : list (string * value)) :
  market_of this symbol = Returned market ->
  publicGetTickerSymbol this
    (extend ({[ "symbol" := of_string (m_id market) ]} : gmap string value) params)
  = Returned (JObj fields) ->
  (forall message, assoc "message" fields = Some message ->
     fetchTicker this symbol params
     = throw ExchangeError ("hitbtc " +:+ js_String message))
  /\ (assoc "message" fields = None ->
     fetchTicker this symbol params = parseTicker (JObj fields) (Some market)).
Proof.
  intros Hmarket Hresponse. unfold fetchTicker. rewrite Hmarket. simpl.
  rewrite Hresponse. simpl. split.
  - intros message Hmessage. rewrite Hmessage.
    rewrite bool_decide_eq_true_2 by eauto. destruct message; reflexivity.
  - intros Hmessage. rewrite Hmessage.
    rewrite bool_decide_eq_false_2 by (intros [? ?]; discriminate). reflexivity.
Qed.

(** X25.  The request of [fetchTradingFee] always names the market by its
    id: a "symbol" among the extra params never replaces it, and every other
    param passes unchanged. *)
Theorem fetchTradingFee_request_symbol (market : market) (params : gmap string value) :
  fetchTradingFee_request market params !! "symbol" = Some (of_string (m_id market))
  /\ (forall key, key <> "symbol" ->
        fetchTradingFee_request market params !! key = params !! key).
Proof.
  unfold fetchTradingFee_request, extend, omit. simpl. split.
  - rewrite lookup_union_r by apply lookup_delete_eq. apply lookup_singleton_eq.
  - intros key Hkey.
    destruct (params !! key) as [v|] eqn:Hparam.
    + apply lookup_union_Some_l. now rewrite lookup_delete_ne.
    + apply lookup_union_None. split.
      * now rewrite lookup_delete_ne.
      * now apply lookup_singleton_ne.
Qed.

End Listings.

(** ** withdraw: what is checked before anything is sent *)

Section WithdrawChecks.
Context {host : Host}.

(** X26.  [withdraw] checks the address first, the currency code second and
    the credentials last: an undefined or invalid address raises
    [InvalidAddress] even for an unknown code and without credentials; with a
    valid address an unknown code raises the currency lookup's error even
    without credentials; with both in order, a missing API key or secret
    raises [AuthenticationError]. *)
Theorem withdraw_checks_in_order (this : exchange) (code : string) (amount : value)
    (address : option string) (tag : value) (params : gmap string value) :
  (address = None \/ (exists a, address = Some a /\ validAddress a = false) ->
     exists message,
       withdraw this code amount address tag params
       = Thrown (Exception InvalidAddress message))
  /\ (forall a, address = Some a -> validAddress a = true ->
        currencies this !! code = None ->
        withdraw this code amount address tag params
        = throw ExchangeError ("hitbtc does not have currency code " +:+ code))
  /\ (forall a, address = Some a -> validAddress a = true ->
        is_Some (currencies this !! code) ->
        present (apiKey this) = false \/ present (secret this) = false ->
        exists message,
          withdraw this code amount address tag params
          = Thrown (Exception AuthenticationError message)).
Proof.
  unfold withdraw, checkAddress, currency_of. split; [|split].
  - intros [-> | (a & -> & ->)]; simpl; eauto.
  - intros a -> -> ->. reflexivity.
  - intros a -> -> (c & ->) Habsent. simpl.
    unfold privatePostAccountCryptoWithdraw, call.
    destruct (sign_without_credentials this "account/crypto/withdraw" "POST"
                (extend (withdraw_request c amount (Some a) tag) params) None None Habsent)
      as (message & ->).
    simpl. eauto.
Qed.

End WithdrawChecks.

(** * Further worked examples *)

Lemma handleErrors_always_raises_witness :
  (exists e,
     @handleErrors Reference.host 500 Examples.gateway_timeout_body
       (Some Examples.gateway_timeout) = Thrown e
     /\ exn_message e = "hitbtc " +:+ Examples.gateway_timeout_body)
  /\ (exists e,
        @handleErrors Reference.host 500 Examples.gateway_timeout_body (Some JNull)
        = Thrown e
        /\ exn_class e = TypeError).
Proof.
  split.
  - destruct (@handleErrors_always_raises Reference.host 500
                Examples.gateway_timeout_body Examples.gateway_timeout)
      as (e & He & Hclass & Hmessage); try lia.
    exists e. split; [exact He|]. apply Hmessage. intros Htype.
    apply Hclass in Htype. destruct Htype as (_ & _ & _ & []).
  - destruct (@handleErrors_always_raises Reference.host 500
                Examples.gateway_timeout_body JNull)
      as (e & He & Hclass & _); try lia.
    exists e. split; [exact He|]. apply Hclass.
    split; [reflexivity|]. split; [lia|]. split; [lia|exact I].
Defined.

Lemma handleErrors_quiet_witness :
  @handleErrors Reference.host 200 Examples.gateway_timeout_body
    (Some Examples.gateway_timeout) = Returned tt.
Proof.
  apply (@handleErrors_quiet Reference.host 200 Examples.gateway_timeout_body
           (Some Examples.gateway_timeout)).
  right. lia.
Defined.

Lemma handleErrors_exact_code_witness :
  @handleErrors Reference.host 400 (Reference.stringify Further.insufficient_funds)
    (Some Further.insufficient_funds)
  = Thrown (Exception InsufficientFunds
              ("hitbtc " +:+ Reference.stringify Further.insufficient_funds)).
Proof.
  apply (@handleErrors_exact_code Reference.host 400
           (Reference.stringify Further.insufficient_funds) Further.insufficient_funds
           (JObj [("code", JNum 20001); ("message", JStr "Insufficient funds")])
           "20001" InsufficientFunds); try lia; reflexivity.
Defined.

Lemma handleErrors_unlisted_code_witness :
  @handleErrors Reference.host 400 (Reference.stringify Further.duplicate)
    (Some Further.duplicate)
  = Thrown (Exception InvalidOrder ("hitbtc " +:+ Reference.stringify Further.duplicate))
  /\ @handleErrors Reference.host 502 "Bad Gateway" (Some JNull)
     = Thrown (Exception ExchangeError "hitbtc Bad Gateway").
Proof.
  split.
  - destruct (@handleErrors_unlisted_code Reference.host 400
                (Reference.stringify Further.duplicate) Further.duplicate)
      as [Hunlisted _]; try lia.
    exact (Hunlisted (JObj [("code", JNum 20008);
                            ("message", JStr "Duplicate clientOrderId")])
             eq_refl eq_refl eq_refl).
  - destruct (@handleErrors_unlisted_code Reference.host 502 "Bad Gateway" JNull)
      as [_ Hplain]; try lia.
    exact (Hplain eq_refl).
Defined.

Lemma createOrder_price_is_recovered_witness :
  exists o this' o',
    @createOrder Reference.host Examples.session "fe36aa5e-1901-49bf-9985-fb673bbb2ea0"
      "ETH/BTC" "limit" "sell" (JNum 1) (JNum 50) ∅
    = Returned (o, this')
    /\ @parseOrder Reference.host this'
         (Examples.bare_order "fe36aa5e190149bf9985fb673bbb2ea0") None = Returned o'
    /\ o_price o' = Some 50%float.
Proof.
  destruct (@parseOrder_total Reference.host Examples.session Reference.accepted None)
    as (o & Ho); [constructor|left; reflexivity|].
  assert (o_price o = Some 50%float
          /\ Some "fe36aa5e190149bf9985fb673bbb2ea0" = o_id o
          /\ o_status o = Some "open") as (Hprice & Hid & Hstatus)
    by (injection Ho as <-; repeat split; reflexivity).
  assert (@privatePostOrder Reference.host Examples.session
            (extend (@createOrder_request Reference.host
                       "fe36aa5e-1901-49bf-9985-fb673bbb2ea0" Examples.eth_btc
                       "ETH/BTC" "limit" "sell" (JNum 1) (JNum 50)) ∅)
          = Returned Reference.accepted) as Hresponse by reflexivity.
  assert (@createOrder Reference.host Examples.session
            "fe36aa5e-1901-49bf-9985-fb673bbb2ea0" "ETH/BTC" "limit" "sell"
            (JNum 1) (JNum 50) ∅
          = Returned (o, set_orders Examples.session
                           (<[property_key (o_id o) := o]> (orders Examples.session))))
    as Hcreated.
  { unfold createOrder.
    rewrite (eq_refl : market_of Examples.session "ETH/BTC" = Returned Examples.eth_btc).
    cbn [obind]. rewrite Hresponse. cbn [obind]. rewrite Ho. cbn [obind].
    rewrite bool_decide_eq_false_2 by (rewrite Hstatus; discriminate).
    reflexivity. }
  destruct (@createOrder_price_is_recovered Reference.host Examples.session _
              "fe36aa5e-1901-49bf-9985-fb673bbb2ea0" "ETH/BTC" "limit" "sell"
              (JNum 1) (JNum 50) ∅ o 50%float
              (Examples.bare_order "fe36aa5e190149bf9985fb673bbb2ea0") None
              Hcreated Hprice Hid eq_refl) as [_ Hparsed].
  destruct (Hparsed eq_refl) as (o' & Ho' & Hprice').
  eexists o, _, o'. split; [exact Hcreated|]. split; assumption.
Defined.


Lemma parseOrder_id_is_clientOrderId_witness :
  exists o,
    @parseOrder Reference.host Examples.session Further.named_twice None = Returned o
    /\ o_id o = Some "f4307c6e507e49019907c917b6d7a084"
    /\ o_clientOrderId o = Some "f4307c6e507e49019907c917b6d7a084".
Proof.
  destruct (@parseOrder_total Reference.host Examples.session Further.named_twice None)
    as (o & Ho); [constructor|left; reflexivity|].
  destruct (@parseOrder_id_is_clientOrderId Reference.host Examples.session
              Further.named_twice None o Ho) as (Hid & Hclient & _).
  exists o. split; [exact Ho|]. split; [exact Hid|].
  rewrite Hclient. exact Hid.
Defined.

Lemma parseOrder_without_fills_witness :
  (exists o, @parseOrder Reference.host Examples.session JNull None = Returned o
             /\ o_price o = None /\ o_cost o = None /\ o_trades o = None)
  /\ (exists o, @parseOrder Reference.host Examples.session Further.no_quantity None
                = Returned o
                /\ o_price o = Some 50%float /\ o_cost o = None /\ o_remaining o = None).
Proof.
  split.
  - destruct (@parseOrder_without_fills Reference.host Examples.session JNull None eq_refl)
      as (o & Ho & _ & _ & Htrades & Hprice & _ & Hcost).
    exists o. repeat split; assumption.
  - destruct (@parseOrder_without_fills Reference.host Examples.session
                Further.no_quantity None eq_refl)
      as (o & Ho & _ & _ & _ & Hprice & Hremaining & Hcost).
    exists o. repeat split; assumption.
Defined.

Lemma parseOrder_empty_fills_witness :
  @known_price Reference.host Examples.session (Further.with_fills "ETHBTC" [])
  = Some 50%float
  /\ @safeFloat Reference.host (Further.with_fills "ETHBTC" []) "cumQuantity"
     = Some 1%float
  /\ exists o,
       @parseOrder Reference.host Examples.session (Further.with_fills "ETHBTC" []) None
       = Returned o
       /\ o_cost o = Some 0%float /\ o_fee o = None /\ o_trades o = Some []
       /\ o_average o = Some 0%float.
Proof.
  split; [reflexivity|]. split; [reflexivity|].
  destruct (@parseOrder_empty_fills Reference.host Examples.session
              (Further.with_fills "ETHBTC" []) None (JArr []) eq_refl eq_refl)
    as (o & Ho & Hcost & Hfee & Htrades & Haverage).
  exists o. repeat split; assumption.
Defined.

Lemma parseOrder_unreadable_fill_witness :
  exists e,
    @parseOrder Reference.host Examples.session
      (Further.with_fills "ETHBTC" [Examples.bare_fill; JNull]) None = Thrown e
    /\ exn_class e = TypeError.
Proof.
  apply (@parseOrder_unreadable_fill Reference.host Examples.session
           (Further.with_fills "ETHBTC" [Examples.bare_fill; JNull]) None
           (JArr [Examples.bare_fill; JNull]) eq_refl).
  right. left. reflexivity.
Defined.

Lemma parseOrder_unknown_market_witness :
  exists e,
    @parseOrder Reference.host Examples.session
      (Further.with_fills "XRPUSDT" [Examples.bare_fill]) None = Thrown e
    /\ exn_class e = TypeError.
Proof.
  apply (@parseOrder_unknown_market Reference.host Examples.session
           (Further.with_fills "XRPUSDT" [Examples.bare_fill]) None
           (JArr [Examples.bare_fill]) eq_refl).
  - discriminate.
  - repeat constructor.
  - reflexivity.
Defined.

Lemma parseTrade_symbol_and_fee_witness :
  (exists t,
     @parseTrade Reference.host Examples.session Further.foreign_fill
       (Some Examples.eth_btc) = Returned t
     /\ t_symbol t = Some "XRPUSDT"
     /\ t_fee t = Some {| fee_cost := Some 1%float; fee_currency := Some "BTC" |}
     /\ t_order t = Some "a8")
  /\ (exists t,
        @parseTrade Reference.host Examples.session Further.inherited_fill
          (Some Examples.eth_btc) = Returned t
        /\ t_symbol t = None
        /\ t_fee t = Some {| fee_cost := Some 1%float; fee_currency := None |}).
Proof.
  split.
  - destruct (@parseTrade_symbol_and_fee Reference.host Examples.session
                Further.foreign_fill (Some Examples.eth_btc) eq_refl)
      as (t & Ht & _ & _ & Hraw & _ & Hfee & Horder).
    exists t. split; [exact Ht|]. split; [|split; assumption].
    apply (Hraw "XRPUSDT"); reflexivity.
  - destruct (@parseTrade_symbol_and_fee Reference.host Examples.session
                Further.inherited_fill (Some Examples.eth_btc) eq_refl)
      as (t & Ht & _ & Hinherited & _ & _ & Hfee & _).
    exists t. split; [exact Ht|]. split; [|exact Hfee].
    apply (Hinherited "constructor"); reflexivity.
Defined.

Lemma fetchOrder_first_or_not_found_witness :
  @fetchOrder (Further.answering (JArr [])) Further.base Examples.session "a9" None ∅
  = Thrown (Exception OrderNotFound "hitbtc order a9 not found")
  /\ @fetchOrder (Further.answering Further.history) Further.base Examples.session
       "a1" None ∅
     = @parseOrder (Further.answering Further.history) Examples.session
         (Further.reported "a1" "filled") None.
Proof.
  split.
  - assert (@privateGetHistoryOrder (Further.answering (JArr [])) Examples.session
              (extend ({[ "clientOrderId" := JStr "a9" ]} : gmap string value) ∅)
            = Returned (JArr [])) as Hresponse by reflexivity.
    destruct (@fetchOrder_first_or_not_found (Further.answering (JArr [])) Further.base
                Examples.session "a9" None ∅ (JArr []) Hresponse) as (Hempty & _ & _).
    exact (Hempty eq_refl).
  - assert (@privateGetHistoryOrder (Further.answering Further.history) Examples.session
              (extend ({[ "clientOrderId" := JStr "a1" ]} : gmap string value) ∅)
            = Returned Further.history) as Hresponse by reflexivity.
    destruct (@fetchOrder_first_or_not_found (Further.answering Further.history)
                Further.base Examples.session "a1" None ∅ Further.history Hresponse)
      as (_ & _ & Hfirst).
    exact (Hfirst _ _ eq_refl).
Defined.

Lemma fetchClosedOrders_keeps_witness :
  exists kept,
    @fetchClosedOrders_kept Reference.host Examples.session Further.history None
    = Returned kept
    /\ map o_id kept = [Some "a1"; Some "a3"].
Proof.
  destruct (@fetchClosedOrders_keeps Reference.host Examples.session Further.history None)
    as (kept & Hkept & _).
  { repeat (constructor; [apply parseOrder_total; [constructor|left; reflexivity]|]).
    constructor. }
  exists kept. split; [exact Hkept|].
  injection Hkept as <-. reflexivity.
Defined.

Lemma fetchTickers_keys_witness :
  exists result,
    @fetchTickers (Further.answering Further.tickers) Further.base Examples.anonymous
      JUndefined ∅ = Returned result
    /\ is_Some (result !! "ETH/BTC")
    /\ is_Some (result !! "XRPUSDT")
    /\ is_Some (result !! "undefined").
Proof.
  destruct (@fetchTickers_keys (Further.answering Further.tickers) Further.base
              Examples.anonymous JUndefined ∅
              [ JObj [("symbol", JStr "ETHBTC"); ("last", JStr "110"); ("open", JStr "100")];
                JNull;
                JObj [("last", JStr "7")];
                JObj [("symbol", JStr "XRPUSDT"); ("last", JStr "3")];
                JObj [("symbol", JStr "toString"); ("last", JStr "5")] ] eq_refl)
    as (result & Hresult & Hkeys & _).
  exists result. split; [exact Hresult|]. split; [|split]; apply Hkeys.
  - exists (JObj [("symbol", JStr "ETHBTC"); ("last", JStr "110"); ("open", JStr "100")]),
      "ETHBTC".
    split; [now left|]. split; reflexivity.
  - exists (JObj [("symbol", JStr "XRPUSDT"); ("last", JStr "3")]), "XRPUSDT".
    split; [right; right; right; now left|]. split; reflexivity.
  - exists (JObj [("symbol", JStr "toString"); ("last", JStr "5")]), "toString".
    split; [right; right; right; right; now left|]. split; reflexivity.
Defined.

Lemma fetchTicker_message_witness :
  @fetchTicker (Further.answering Further.symbol_not_found) Examples.anonymous
    "ETH/BTC" ∅
  = Thrown (Exception ExchangeError "hitbtc Symbol not found").
Proof.
  assert (@publicGetTickerSymbol (Further.answering Further.symbol_not_found)
            Examples.anonymous
            (extend ({[ "symbol" := of_string (m_id Examples.eth_btc) ]}
                     : gmap string value) ∅)
          = Returned Further.symbol_not_found) as Hresponse by reflexivity.
  destruct (@fetchTicker_message (Further.answering Further.symbol_not_found)
              Examples.anonymous "ETH/BTC" ∅ Examples.eth_btc
              [("message", JStr "Symbol not found")] eq_refl Hresponse)
    as [Hmessage _].
  exact (Hmessage (JStr "Symbol not found") eq_refl).
Defined.
